(** * AGAMATOKEN_BOT: a shallow embedding of [bot.py]

    The bot watches new blocks for native-currency transfers to the token
    contract, posts a buy alert for each transfer that reaches the minimum
    purchase, and posts a reminder from a self-rescheduling timer.

    Conventions of the embedding.
    - Python values: [str] is [string] (bytes; the addresses and names the
      program handles are ASCII), an optional value is [option], [int] is
      [Z], a [Decimal] is the rational it denotes ([Q]), the [float]
      literal [0.025] is the binary64 number the literal denotes, again as
      an exact rational: Python compares a [Decimal] with a [float] exactly.
    - Exceptions: a computation returns [Ok v] or [Raise e].  [try]/[except]
      is [try_except], with the handler list read top to bottom as Python
      does.
    - The outside world (chain endpoint, Bot API, wall clock) is an
      environment [Env] of oracles indexed by the number of external calls
      made so far; every theorem quantifies over it.
    - The language and its standard library are modelled as they behave:
      truth values, the exception hierarchy, the exact comparison of a
      [Decimal] with a [float], [threading.Timer], and [asyncio.run], which
      raises [RuntimeError] when an event loop is already running in the
      calling thread.  Calls into third-party libraries are oracles.
    - Loops that need not end ([while True], the retry recursion) take
      fuel; running out of fuel is [None], never a result. *)

From Stdlib Require Import ZArith QArith List String Ascii Bool Lia.
From Stdlib Require Import DecimalString.
Import ListNotations.
Open Scope string_scope.
Open Scope Z_scope.

(** ** Python exceptions *)

Inductive exn : Type :=
| TelegramError                 (* telegram.error.TelegramError *)
| ValueError                    (* fromWei on an amount outside 0 .. 2**256-1 *)
| AttributeError                (* attribute access on None *)
| RuntimeError                  (* asyncio.run() inside a running event loop *)
| OtherException (what : string) (* any other subclass of Exception *)
| CancelledError                (* asyncio.CancelledError, a BaseException *)
| KeyboardInterrupt             (* a BaseException *)
| SystemExit (code : Z).        (* exit(code), a BaseException *)

(** [except Exception] catches exactly the subclasses of [Exception]. *)
Definition is_Exception (e : exn) : bool :=
  match e with
  | TelegramError | ValueError | AttributeError | RuntimeError
  | OtherException _ => true
  | CancelledError | KeyboardInterrupt | SystemExit _ => false
  end.

Definition is_TelegramError (e : exn) : bool :=
  match e with TelegramError => true | _ => false end.

Definition is_CancelledError (e : exn) : bool :=
  match e with CancelledError => true | _ => false end.

Inductive result (A : Type) : Type :=
| Ok (a : A)
| Raise (e : exn).
Arguments Ok {A} a.
Arguments Raise {A} e.

(** ** Configuration (lines 26-34) *)

Record Config : Type := {
  TELEGRAM_BOT_TOKEN : option string;     (* os.environ.get("TEL_BOT_TOKEN") *)
  TELEGRAM_CHAT_ID : option string;       (* os.environ.get("TEL_CHAT_ID") *)
  QUICKNODE_WSS_URL : option string;      (* os.environ.get("QN_WSS_URL") *)
  TOKEN_CONTRACT_ADDRESS : option string  (* os.environ.get("TOKEN_CONTRACT_ADDRESS") *)
}.

(** Truth value of an [Optional[str]]: [None] and [""] are false. *)
Definition truthy (o : option string) : bool :=
  match o with
  | None => false
  | Some s => negb (s =? "")%string
  end.

Definition AGAMA_LOGO_URL : string :=
  "https://www.agamacoin.com/agama-logo-new.png".
Definition BSC_SCAN_TOKEN_URL : string :=
  "https://bscscan.com/token/0x2119de8f257d27662991198389E15Bf8d1F4aB24".

(** ** The float literal [0.025]

    [binary64_of q] is the binary64 number nearest to the positive rational
    [q] (round to nearest, ties to even), in the normal range: the value a
    decimal literal denoting [q] has as a Python [float]. *)

Definition round_half_even (n d : Z) : Z :=
  let q := n / d in
  let r := n mod d in
  match 2 * r ?= d with
  | Lt => q
  | Gt => q + 1
  | Eq => if Z.even q then q else q + 1
  end.

Definition scale2 (n d k : Z) : Z * Z :=
  if 0 <=? k then (n * 2 ^ k, d) else (n, d * 2 ^ (- k)).

Definition binary64_of (q : Q) : Q :=
  let n := Qnum q in
  let d := Zpos (Qden q) in
  let k0 := 52 + Z.log2 d - Z.log2 n in
  let '(n0, d0) := scale2 n d k0 in
  let k := if n0 / d0 <? 2 ^ 52 then k0 + 1 else k0 in
  let '(n1, d1) := scale2 n d k in
  let m := round_half_even n1 d1 in
  if 0 <=? k then m # Z.to_pos (2 ^ k) else (m * 2 ^ (- k)) # 1.

(** [MIN_BNB_PURCHASE = 0.025] (line 32). *)
Definition MIN_BNB_PURCHASE : Q := Eval vm_compute in binary64_of (25 # 1000).

(** ** Transactions and blocks *)

Record Transaction : Type := {
  tx_to : option string;   (* tx.to: None for a contract creation *)
  tx_value : Z;            (* tx['value'], in wei *)
  tx_hash : string;        (* tx['hash'], raw bytes *)
  tx_from : string         (* tx['from'] *)
}.

Record Block : Type := {
  number : Z;
  transactions : list Transaction
}.

(** [str.lower] on ASCII text. *)
Definition lower_ascii (c : ascii) : ascii :=
  let n := nat_of_ascii c in
  if ((65 <=? n) && (n <=? 90))%nat then ascii_of_nat (n + 32) else c.

Fixpoint lower (s : string) : string :=
  match s with
  | EmptyString => EmptyString
  | String c s' => String (lower_ascii c) (lower s')
  end.

(** [w3.toHex] on bytes: ["0x"] followed by two hex digits per byte. *)
Definition hex_digit (n : nat) : ascii :=
  if (n <? 10)%nat then ascii_of_nat (48 + n) else ascii_of_nat (87 + n).

Fixpoint hex_of_bytes (s : string) : string :=
  match s with
  | EmptyString => EmptyString
  | String c s' =>
      let n := nat_of_ascii c in
      String (hex_digit (n / 16)) (String (hex_digit (n mod 16)) (hex_of_bytes s'))
  end.

Definition toHex (b : string) : string := "0x" ++ hex_of_bytes b.

(** [w3.fromWei(number, 'ether')]: [0] for [0], [ValueError] outside
    [0 .. 2**256 - 1], otherwise the exact quotient by [10**18]. *)
Definition MAX_WEI : Z := 2 ^ 256 - 1.
Definition ether : positive := Eval vm_compute in Z.to_pos (10 ^ 18).

Definition fromWei (number : Z) : result Q :=
  if number =? 0 then Ok (0 # 1)
  else if (number <? 0) || (MAX_WEI <? number) then Raise ValueError
  else Ok (number # ether).

(** ** The threshold check (lines 112-116) *)

Record QualifyingEvent : Type := {
  ev_tx_hash : string;
  ev_amount : Q;
  ev_buyer : string
}.

(** The body of the [for] loop up to the alert: the recipient test, the
    conversion and the comparison with the minimum, in the source's order.
    [tx.to and ...] short-circuits, so the watched address is only
    lower-cased when the recipient is truthy. *)
Definition evaluate (cfg : Config) (tx : Transaction)
  : result (option QualifyingEvent) :=
  match tx_to tx with
  | None => Ok None
  | Some r =>
      if negb (truthy (Some r)) then Ok None
      else
        match TOKEN_CONTRACT_ADDRESS cfg with
        | None => Raise AttributeError
        | Some a =>
            if (lower r =? lower a)%string then
              match fromWei (tx_value tx) with
              | Raise e => Raise e
              | Ok bnb_value =>
                  if Qle_bool MIN_BNB_PURCHASE bnb_value then
                    Ok (Some {| ev_tx_hash := toHex (tx_hash tx);
                                ev_amount := bnb_value;
                                ev_buyer := tx_from tx |})
                  else Ok None
              end
            else Ok None
        end
  end.

(** The value of a transaction in native units, as a rational. *)
Definition native_value (tx : Transaction) : Q := tx_value tx # ether.

(** ** Message texts

    [format_3f q] is [f"{q:.3f}"] for a non-negative [Decimal]: three
    decimals, rounded half to even as the decimal context does. *)

Definition str_of_Z (z : Z) : string := NilZero.string_of_int (Z.to_int z).

Definition pad3 (s : string) : string :=
  match String.length s with
  | 0%nat => "000" ++ s
  | 1%nat => "00" ++ s
  | 2%nat => "0" ++ s
  | _ => s
  end.

Definition format_3f (q : Q) : string :=
  let m := round_half_even (Qnum q * 1000) (Zpos (Qden q)) in
  str_of_Z (m / 1000) ++ "." ++ pad3 (str_of_Z (m mod 1000)).

(** [s[:6]] and [s[-4:]]. *)
Definition first6 (s : string) : string := substring 0 6 s.
Definition last4 (s : string) : string :=
  substring (String.length s - 4) 4 s.

Definition buy_alert_caption (tx_hash : string) (amount : Q)
    (buyer_address : string) : string :=
  "🚀 *New Buy Alert!* 🚀" ++ "

" ++ "A true believer just joined the Agama Army! A savvy investor just acquired some $AGAMA!" ++ "

" ++ "💰 *Amount*: " ++ format_3f amount ++ " BNB" ++ "
" ++ "👤 *Buyer*: `" ++ first6 buyer_address ++ "..." ++ last4 buyer_address ++ "`" ++ "
" ++ "🔗 *Transaction*: [View on BscScan](https://bscscan.com/tx/" ++ tx_hash ++ ")" ++ "
" ++ "📈 *Become an early holder*: [Buy $AGAMA now!](" ++ BSC_SCAN_TOKEN_URL ++ ")".

Definition reminder_text : string :=
  "⏰ *Reminder*: The Presale is Live! ⏰" ++ "

" ++ "Don't miss your chance to be an early holder of Agama Coin! " ++ "The future of decentralized finance starts here." ++ "

" ++ "➡️ [Buy Now and Join the Journey!](" ++ BSC_SCAN_TOKEN_URL ++ ")".

(** ** What the program does to the world

    What [print] writes: a literal line, or one of the formatted lines
    with the values it interpolates. *)
Inductive message : Type :=
| Literal (s : string)
| SentBuyAlert (tx_hash : string)                  (* line 64 *)
| ErrorSendingAlert (e : exn)                      (* line 67 *)
| UnexpectedInAlert (e : exn)                      (* line 69 *)
| ErrorSendingReminder (e : exn)                   (* line 91 *)
| UnexpectedInReminder (e : exn)                   (* line 93 *)
| ProcessingBlock (block_number : Z) (n : nat)     (* line 107 *)
| FoundQualifying (tx_hash buyer : string) (bnb_value : Q)  (* line 117 *)
| ErrorHandlingBlock (block_number : Z) (e : exn)  (* line 121 *)
| ErrorReceiving (e : exn)                         (* line 152 *)
| ConnectionFailed (e : exn)                       (* line 156 *)
| ErrorInitializingHTTP (e : exn).                 (* line 177 *)

Inductive event : Type :=
| EvPrint (m : message)
| EvGetBlock (block_number : Z)            (* w3.eth.get_block *)
| EvSendPhoto (chat_id : option string) (photo caption : string)
| EvSendMessage (chat_id : option string) (text : string)
| EvConnect (url : option string)          (* provider and newHeads subscription *)
| EvReceive                                (* new_block_filter.receive() *)
| EvIsConnected                            (* the HTTP provider and w3.is_connected() *)
| EvSleep (seconds : Z)                    (* time.sleep *)
| EvTimerStart (seconds : Z)               (* Timer(seconds, send_reminder).start() *)
| EvTimerFired.                            (* the timer thread calls send_reminder *)

(** The oracles: what the constructor of the bot does with a token, what
    the [k]-th external call answers and how long it takes
    (milliseconds). *)
Record Env : Type := {
  Bot_new : option string -> result unit;   (* Bot(token=...), line 37 *)
  get_block_reply : nat -> Z -> result Block;
  bot_reply : nat -> result unit;
  connect_reply : nat -> result unit;
  receive_reply : nat -> result Z;
  is_connected_reply : nat -> result bool;
  latency : nat -> Z
}.

(** The state of a thread.  [loop]: an asyncio event loop is running in
    it; [io]: external calls made so far; [clock]: milliseconds; [timer]:
    when the armed [Timer] fires; [trace]: the time-stamped events, oldest
    first. *)
Record State : Type := {
  loop : bool;
  io : nat;
  clock : Z;
  timer : option Z;
  trace : list (Z * event)
}.

Definition M (A : Type) : Type := State -> result A * State.

Definition ret {A} (a : A) : M A := fun s => (Ok a, s).
Definition raise {A} (e : exn) : M A := fun s => (Raise e, s).
Definition bind {A B} (m : M A) (k : A -> M B) : M B :=
  fun s =>
    match m s with
    | (Ok a, s') => k a s'
    | (Raise e, s') => (Raise e, s')
    end.
Definition lift {A} (r : result A) : M A := fun s => (r, s).

Declare Scope py_scope.
Delimit Scope py_scope with py.
Notation "x <- m ;; k" := (bind m (fun x => k))
  (at level 100, m at next level, right associativity) : py_scope.
Notation "m ;; k" := (bind m (fun _ => k))
  (at level 100, right associativity) : py_scope.
Open Scope py_scope.

(** [try: body / except C1: h1 / except C2: h2 ...]: the first clause whose
    class matches handles the exception; none matching, it propagates. *)
Fixpoint dispatch {A} (hs : list ((exn -> bool) * (exn -> M A))) (e : exn) : M A :=
  match hs with
  | [] => raise e
  | (matches, h) :: hs' => if matches e then h e else dispatch hs' e
  end.

Definition try_except {A} (body : M A)
    (hs : list ((exn -> bool) * (exn -> M A))) : M A :=
  fun s =>
    match body s with
    | (Ok a, s') => (Ok a, s')
    | (Raise e, s') => dispatch hs e s'
    end.

Definition log (e : event) : M unit :=
  fun s => (Ok tt, {| loop := loop s; io := io s; clock := clock s; timer := timer s;
                      trace := trace s ++ [(clock s, e)] |}).

Definition print (m : message) : M unit := log (EvPrint m).

Definition sleep (seconds : Z) : M unit :=
  fun s => (Ok tt, {| loop := loop s; io := io s; clock := clock s + 1000 * seconds;
                      timer := timer s;
                      trace := trace s ++ [(clock s, EvSleep seconds)] |}).

Definition Timer_start (seconds : Z) : M unit :=
  fun s => (Ok tt, {| loop := loop s; io := io s; clock := clock s;
                      timer := Some (clock s + 1000 * seconds);
                      trace := trace s ++ [(clock s, EvTimerStart seconds)] |}).

Definition set_loop (running : bool) (s : State) : State :=
  {| loop := running; io := io s; clock := clock s; timer := timer s;
     trace := trace s |}.

(** [asyncio.run(c)]: [RuntimeError] when an event loop is already
    running in the thread (the coroutine object is dropped unrun);
    otherwise the coroutine [c] is run to its end in a new loop, which is
    closed when it returns or raises. *)
Definition asyncio_run {A} (coroutine : M A) : M A :=
  fun s =>
    if loop s then (Raise RuntimeError, s)
    else let (r, s') := coroutine (set_loop true s) in (r, set_loop false s').

(** The same for a coroutine that need not end. *)
Definition asyncio_run_fuel {A} (coroutine : State -> option (result A * State))
  : State -> option (result A * State) :=
  fun s =>
    if loop s then Some (Raise RuntimeError, s)
    else match coroutine (set_loop true s) with
         | Some (r, s') => Some (r, set_loop false s')
         | None => None
         end.

(** ** The program *)

Section Bot.

Variable cfg : Config.
Variable env : Env.

(** An external call: it is logged when made, answers what the oracle
    says for call number [io], and takes that call's latency. *)
Definition external {A} (e : event) (reply : nat -> result A) : M A :=
  fun s => (reply (io s),
            {| loop := loop s; io := S (io s); clock := clock s + latency env (io s);
               timer := timer s; trace := trace s ++ [(clock s, e)] |}).

Definition bot_send_photo (caption : string) : M unit :=
  external (EvSendPhoto (TELEGRAM_CHAT_ID cfg) AGAMA_LOGO_URL caption)
           (bot_reply env).

Definition bot_send_message (text : string) : M unit :=
  external (EvSendMessage (TELEGRAM_CHAT_ID cfg) text) (bot_reply env).

Definition get_block (block_number : Z) : M Block :=
  external (EvGetBlock block_number)
           (fun k => get_block_reply env k block_number).

(** [send_telegram_alert] (lines 41-69). *)
Definition send_telegram_alert (tx_hash : string) (amount : Q)
    (buyer_address : string) : M unit :=
  try_except
    (let message := buy_alert_caption tx_hash amount buyer_address in
     bot_send_photo message ;;
     print (SentBuyAlert tx_hash))
    [ (is_TelegramError, fun e => print (ErrorSendingAlert e));
      (is_Exception, fun e => print (UnexpectedInAlert e)) ].

(** [send_reminder] (lines 72-98): the send, then the next timer. *)
Definition send_reminder : M unit :=
  try_except
    (asyncio_run (bot_send_message reminder_text) ;;
     print (Literal "Sent 30-minute reminder."))
    [ (is_TelegramError, fun e => print (ErrorSendingReminder e));
      (is_Exception, fun e => print (UnexpectedInReminder e)) ] ;;
  Timer_start (30 * 60).

(** The [for] loop of [handle_new_block] (lines 109-119). *)
Fixpoint for_transactions (txs : list Transaction) : M unit :=
  match txs with
  | [] => ret tt
  | tx :: rest =>
      q <- lift (evaluate cfg tx) ;;
      match q with
      | Some ev =>
          print (FoundQualifying (ev_tx_hash ev) (ev_buyer ev) (ev_amount ev)) ;;
          asyncio_run (send_telegram_alert (ev_tx_hash ev) (ev_amount ev)
                                           (ev_buyer ev))
      | None => ret tt
      end ;;
      for_transactions rest
  end.

(** [handle_new_block] (lines 101-121). *)
Definition handle_new_block (block_number : Z) : M unit :=
  try_except
    (block <- get_block block_number ;;
     print (ProcessingBlock block_number (List.length (transactions block))) ;;
     for_transactions (transactions block))
    [ (is_Exception, fun e => print (ErrorHandlingBlock block_number e)) ].

(** One pass through the body of [while True] (lines 140-154).  [true]:
    go round again; [false]: [break]. *)
Definition receive_step : M bool :=
  try_except
    (block_number <- external EvReceive (receive_reply env) ;;
     handle_new_block block_number ;;
     ret true)
    [ (is_CancelledError,
       fun _ => print (Literal "WebSocket connection was cancelled.") ;;
                ret false);
      (is_Exception,
       fun e => print (ErrorReceiving e) ;; sleep 2 ;; ret true) ].

(** [while True] (line 139). *)
Fixpoint receive_loop (fuel : nat) (s : State) : option (result unit * State) :=
  match fuel with
  | O => None
  | S fuel' =>
      match receive_step s with
      | (Ok true, s') => receive_loop fuel' s'
      | (Ok false, s') => Some (Ok tt, s')
      | (Raise e, s') => Some (Raise e, s')
      end
  end.

(** [listen_for_new_blocks] (lines 123-159).  The [try] covers the
    connection, the subscription and the loop; its handler waits five
    seconds and runs the function again. *)
Fixpoint listen_for_new_blocks (fuel : nat) (s : State)
  : option (result unit * State) :=
  match fuel with
  | O => None
  | S fuel' =>
      let body :=
        match (print (Literal "Connecting to QuickNode via WebSocket...") ;;
               external (EvConnect (QUICKNODE_WSS_URL cfg)) (connect_reply env)) s with
        | (Ok _, s') => receive_loop fuel' s'
        | (Raise e, s') => Some (Raise e, s')
        end in
      match body with
      | None => None
      | Some (Ok v, s') => Some (Ok v, s')
      | Some (Raise e, s') =>
          if is_Exception e then
            match (print (ConnectionFailed e) ;;
                   print (Literal "Retrying connection in 5 seconds...") ;;
                   sleep 5) s' with
            | (Ok _, s'') => asyncio_run_fuel (listen_for_new_blocks fuel') s''
            | (Raise e', s'') => Some (Raise e', s'')
            end
          else Some (Raise e, s')
      end
  end.

(** The timer thread: when the armed timer is due it calls
    [send_reminder], which arms the next one. *)
Definition fire (s : State) : option (result unit * State) :=
  match timer s with
  | None => None
  | Some due =>
      Some ((log EvTimerFired ;; send_reminder)
              {| loop := false; io := io s; clock := due; timer := None; trace := trace s |})
  end.

Fixpoint timer_thread (firings : nat) (s : State) : option (result unit * State) :=
  match firings with
  | O => Some (Ok tt, s)
  | S n =>
      match fire s with
      | Some (Ok _, s') => timer_thread n s'
      | other => other
      end
  end.

(** The entry point (lines 162-184), up to the listener. *)
Definition required : list (option string) :=
  [ TELEGRAM_BOT_TOKEN cfg; TELEGRAM_CHAT_ID cfg;
    QUICKNODE_WSS_URL cfg; TOKEN_CONTRACT_ADDRESS cfg ].

Definition exit {A} (code : Z) : M A := raise (SystemExit code).

Definition startup : M unit :=
  (if negb (forallb truthy required) then
     print (Literal "Error: One or more required environment variables are not set.") ;;
     print (Literal "Please set TEL_BOT_TOKEN, TEL_CHAT_ID, QN_WSS_URL, and TOKEN_CONTRACT_ADDRESS.") ;;
     exit 1
   else ret tt) ;;
  print (Literal "Bot is starting...") ;;
  try_except
    (connected <- external EvIsConnected (is_connected_reply env) ;;
     if negb connected
     then raise (OtherException "Failed to connect to QuickNode via HTTP.")
     else ret tt)
    [ (is_Exception, fun e => print (ErrorInitializingHTTP e) ;; exit 1) ] ;;
  print (Literal "Starting 30-minute reminder timer...") ;;
  Timer_start (30 * 60) ;;
  print (Literal "Starting blockchain listener...").

(** The module level (line 37) runs before the entry point. *)
Definition module_init : M unit := lift (Bot_new env (TELEGRAM_BOT_TOKEN cfg)).

Definition main (fuel : nat) (s : State) : option (result unit * State) :=
  match (module_init ;; startup) s with
  | (Ok _, s') => asyncio_run_fuel (listen_for_new_blocks fuel) s'
  | (Raise e, s') => Some (Raise e, s')
  end.

End Bot.

(** ** States the proofs name *)

(** A computation that leaves the loop flag as it found it. *)
Definition keeps_loop {A} (m : M A) : Prop :=
  forall s, loop (snd (m s)) = loop s.

(** The state after line 117 has printed the event. *)
Definition found (ev : QualifyingEvent) (s : State) : State :=
  snd (print (FoundQualifying (ev_tx_hash ev) (ev_buyer ev) (ev_amount ev)) s).

(** After [receive()] has returned a header. *)
Definition after_receive (env : Env) (s : State) : State :=
  {| loop := loop s; io := S (io s); clock := clock s + latency env (io s); timer := timer s;
     trace := (trace s ++ [(clock s, EvReceive)])%list |}.

(** After a connection attempt that failed with [e] and the five-second
    wait that follows it. *)
Definition after_failed_attempt (cfg : Config) (env : Env) (e : exn)
    (s : State) : State :=
  {| loop := loop s; io := S (io s);
     clock := clock s + latency env (io s) + 1000 * 5;
     timer := timer s;
     trace :=
       (trace s
        ++ [ (clock s, EvPrint (Literal "Connecting to QuickNode via WebSocket..."));
             (clock s, EvConnect (QUICKNODE_WSS_URL cfg));
             (clock s + latency env (io s), EvPrint (ConnectionFailed e));
             (clock s + latency env (io s),
              EvPrint (Literal "Retrying connection in 5 seconds..."));
             (clock s + latency env (io s), EvSleep 5) ])%list |}.

(** After a connection attempt, whatever its outcome. *)
Definition after_attempt (cfg : Config) (env : Env) (s : State) : State :=
  {| loop := loop s; io := S (io s); clock := clock s + latency env (io s); timer := timer s;
     trace :=
       (trace s
        ++ [ (clock s, EvPrint (Literal "Connecting to QuickNode via WebSocket..."));
             (clock s, EvConnect (QUICKNODE_WSS_URL cfg)) ])%list |}.

(** The waits of a trace (seconds) and the times of its connection
    attempts and timer firings. *)
Definition sleeps (tr : list (Z * event)) : list Z :=
  flat_map (fun te => match snd te with EvSleep d => [d] | _ => [] end) tr.

Definition connects (tr : list (Z * event)) : list Z :=
  flat_map (fun te => match snd te with EvConnect _ => [fst te] | _ => [] end) tr.

Definition firing_times (tr : list (Z * event)) : list Z :=
  flat_map (fun te => match snd te with EvTimerFired => [fst te] | _ => [] end) tr.

(** What [send_reminder] prints for an outcome of the send. *)
Definition reminder_log (r : result unit) : message :=
  match r with
  | Ok _ => Literal "Sent 30-minute reminder."
  | Raise e => if is_TelegramError e then ErrorSendingReminder e
               else UnexpectedInReminder e
  end.

(** After the timer due at [due] has fired and [send_reminder] has run. *)
Definition after_fire (cfg : Config) (env : Env) (due : Z) (s : State) : State :=
  {| loop := false; io := S (io s);
     clock := due + latency env (io s);
     timer := Some (due + latency env (io s) + 1000 * (30 * 60));
     trace :=
       (trace s
        ++ [ (due, EvTimerFired);
             (due, EvSendMessage (TELEGRAM_CHAT_ID cfg) reminder_text);
             (due + latency env (io s), EvPrint (reminder_log (bot_reply env (io s))));
             (due + latency env (io s), EvTimerStart (30 * 60)) ])%list |}.

(** The firing times of [n] firings from a timer due at [due], the send
    of the first being external call number [k]. *)
Fixpoint schedule (env : Env) (n : nat) (due : Z) (k : nat) : list Z :=
  match n with
  | O => []
  | S n' => due :: schedule env n' (due + latency env k + 1000 * (30 * 60)) (S k)
  end.

(** The exit status of the process for the result of [main]. *)
Definition exit_status (r : result unit) : Z :=
  match r with
  | Ok _ => 0
  | Raise (SystemExit code) => code
  | Raise _ => 1
  end.

(** The names of the required variables, the ones a configuration lacks,
    and the ones the printed lines of a trace name. *)
Definition required_names : list string :=
  [ "TEL_BOT_TOKEN"; "TEL_CHAT_ID"; "QN_WSS_URL"; "TOKEN_CONTRACT_ADDRESS" ].

Definition missing (cfg : Config) : list string :=
  map fst (filter (fun nv => negb (truthy (snd nv)))
             (combine required_names (required cfg))).

Fixpoint contains (pat s : string) : bool :=
  match s with
  | EmptyString => (pat =? EmptyString)%string
  | String c s' => prefix pat s || contains pat s'
  end.

Definition printed_lines (tr : list (Z * event)) : list string :=
  flat_map (fun te => match snd te with
                      | EvPrint (Literal l) => [l]
                      | _ => []
                      end) tr.

Definition reported (tr : list (Z * event)) : list string :=
  filter (fun name => existsb (contains name) (printed_lines tr)) required_names.

(** After the two lines of the configuration error. *)
Definition after_config_error (s : State) : State :=
  {| loop := loop s; io := io s; clock := clock s; timer := timer s;
     trace :=
       (trace s
        ++ [ (clock s, EvPrint (Literal "Error: One or more required environment variables are not set."));
             (clock s, EvPrint (Literal "Please set TEL_BOT_TOKEN, TEL_CHAT_ID, QN_WSS_URL, and TOKEN_CONTRACT_ADDRESS.")) ])%list |}.

(** After a start-up that went through. *)
Definition after_startup (env : Env) (s : State) : State :=
  {| loop := loop s; io := S (io s);
     clock := clock s + latency env (io s);
     timer := Some (clock s + latency env (io s) + 1000 * (30 * 60));
     trace :=
       (trace s
        ++ [ (clock s, EvPrint (Literal "Bot is starting..."));
             (clock s, EvIsConnected);
             (clock s + latency env (io s),
              EvPrint (Literal "Starting 30-minute reminder timer..."));
             (clock s + latency env (io s), EvTimerStart (30 * 60));
             (clock s + latency env (io s),
              EvPrint (Literal "Starting blockchain listener...")) ])%list |}.

(** ** Observations on a trace *)

Definition is_bot_call (e : event) : bool :=
  match e with
  | EvSendPhoto _ _ _ | EvSendMessage _ _ => true
  | _ => false
  end.

(** The Bot API calls of a trace, in order. *)
Definition notifier_calls (tr : list (Z * event)) : list event :=
  filter is_bot_call (map snd tr).

(** The events the check yields on a list of transactions, in order. *)
Definition qualifying (cfg : Config) (txs : list Transaction)
  : list QualifyingEvent :=
  flat_map (fun tx => match evaluate cfg tx with
                      | Ok (Some ev) => [ev]
                      | _ => []
                      end) txs.

(** The Bot API call [send_telegram_alert] makes for an event. *)
Definition buy_alert (cfg : Config) (ev : QualifyingEvent) : event :=
  EvSendPhoto (TELEGRAM_CHAT_ID cfg) AGAMA_LOGO_URL
    (buy_alert_caption (ev_tx_hash ev) (ev_amount ev) (ev_buyer ev)).

(** The Bot API fails only with subclasses of [Exception]. *)
Definition bot_never_interrupted (env : Env) : Prop :=
  forall k e, bot_reply env k = Raise e -> is_Exception e = true.

(** The state after a buy alert whose send failed with [e]. *)
Definition after_failed_alert (cfg : Config) (env : Env) (caption : string) (e : exn) (s : State) : State :=
  {| loop := loop s; io := S (io s); clock := clock s + latency env (io s); timer := timer s;
     trace := ((trace s
               ++ [(clock s, EvSendPhoto (TELEGRAM_CHAT_ID cfg) AGAMA_LOGO_URL caption)])
              ++ [(clock s + latency env (io s),
                   EvPrint (if is_TelegramError e then ErrorSendingAlert e
                            else UnexpectedInAlert e))])%list |}.

(** ** Sample data *)

Definition watched_cfg : Config :=
  {| TELEGRAM_BOT_TOKEN := Some "123:abc";
     TELEGRAM_CHAT_ID := Some "-1001";
     QUICKNODE_WSS_URL := Some "wss://node.example/ws";
     TOKEN_CONTRACT_ADDRESS := Some "0x2119de8f257d27662991198389E15Bf8d1F4aB24" |}.

Definition transfer (to : option string) (wei : Z) : Transaction :=
  {| tx_to := to; tx_value := wei; tx_hash := "abcd";
     tx_from := "0x00000000000000000000000000000000000000b1" |}.

Definition to_watched : option string :=
  Some "0x2119DE8F257D27662991198389E15BF8D1F4AB24".


(** A block with a transfer that qualifies, a contract creation, a
    transfer below the minimum and a second transfer that qualifies. *)
Definition sample_block : Block :=
  {| number := 7;
     transactions :=
       [ transfer to_watched 30000000000000000;
         transfer None 50000000000000000;
         transfer to_watched 10000000000000000;
         transfer to_watched 1000000000000000000 ] |}.

(** A block whose second transaction carries a value [fromWei] rejects. *)
Definition broken_block : Block :=
  {| number := 8;
     transactions :=
       [ transfer to_watched 30000000000000000;
         transfer to_watched (2 ^ 256);
         transfer to_watched 1000000000000000000 ] |}.

(** A world in which every send fails, the first three connection
    attempts fail, and every call takes a quarter of a second. *)
Definition sample_env : Env :=
  {| Bot_new := fun _ => Ok tt;
     get_block_reply := fun _ n => if n =? 8 then Ok broken_block else Ok sample_block;
     bot_reply := fun _ => Raise TelegramError;
     connect_reply := fun k => if (k <? 3)%nat then Raise (OtherException "refused")
                               else Ok tt;
     receive_reply := fun _ => Ok 8;
     is_connected_reply := fun _ => Ok true;
     latency := fun _ => 250 |}.

(** A world in which everything works: the subscription delivers the
    header of [sample_block] and is then cancelled. *)
Definition live_env : Env :=
  {| Bot_new := fun _ => Ok tt;
     get_block_reply := fun _ _ => Ok sample_block;
     bot_reply := fun _ => Ok tt;
     connect_reply := fun _ => Ok tt;
     receive_reply := fun k => if (k =? 2)%nat then Ok 7 else Raise CancelledError;
     is_connected_reply := fun _ => Ok true;
     latency := fun _ => 250 |}.

(** A world in which no block can be fetched. *)
Definition no_block_env : Env :=
  {| Bot_new := fun _ => Ok tt;
     get_block_reply := fun _ _ => Raise (OtherException "unknown block");
     bot_reply := fun _ => Ok tt;
     connect_reply := fun _ => Ok tt;
     receive_reply := fun _ => Ok 7;
     is_connected_reply := fun _ => Ok true;
     latency := fun _ => 250 |}.

(** A block with a contract creation and a transfer below the minimum,
    and a world that delivers it. *)
Definition quiet_block : Block :=
  {| number := 7;
     transactions := [ transfer None 50000000000000000;
                       transfer to_watched 10000000000000000 ] |}.

Definition quiet_env : Env :=
  {| Bot_new := fun _ => Ok tt;
     get_block_reply := fun _ _ => Ok quiet_block;
     bot_reply := fun _ => Ok tt;
     connect_reply := fun _ => Ok tt;
     receive_reply := fun _ => Ok 7;
     is_connected_reply := fun _ => Ok true;
     latency := fun _ => 250 |}.

(** Worlds for the listener: one whose first wait for a header fails and
    whose second is cancelled, one whose waits are all cancelled, and one
    in which connecting is cancelled. *)
Definition flaky_env : Env :=
  {| Bot_new := fun _ => Ok tt;
     get_block_reply := fun _ _ => Ok sample_block;
     bot_reply := fun _ => Ok tt;
     connect_reply := fun _ => Ok tt;
     receive_reply := fun k => if (k =? 0)%nat then Raise (OtherException "closed")
                               else Raise CancelledError;
     is_connected_reply := fun _ => Ok true;
     latency := fun _ => 250 |}.

Definition cancelled_env : Env :=
  {| Bot_new := fun _ => Ok tt;
     get_block_reply := fun _ _ => Ok sample_block;
     bot_reply := fun _ => Ok tt;
     connect_reply := fun _ => Ok tt;
     receive_reply := fun _ => Raise CancelledError;
     is_connected_reply := fun _ => Ok true;
     latency := fun _ => 250 |}.

Definition interrupted_env : Env :=
  {| Bot_new := fun _ => Ok tt;
     get_block_reply := fun _ _ => Ok sample_block;
     bot_reply := fun _ => Ok tt;
     connect_reply := fun _ => Raise CancelledError;
     receive_reply := fun _ => Ok 7;
     is_connected_reply := fun _ => Ok true;
     latency := fun _ => 250 |}.

(** A world in which the Bot API call is interrupted from the keyboard. *)
Definition interrupt_env : Env :=
  {| Bot_new := fun _ => Ok tt;
     get_block_reply := fun _ _ => Ok sample_block;
     bot_reply := fun _ => Raise KeyboardInterrupt;
     connect_reply := fun _ => Ok tt;
     receive_reply := fun _ => Ok 7;
     is_connected_reply := fun _ => Ok true;
     latency := fun _ => 250 |}.

(** A state of the timer thread with the timer due after thirty minutes. *)
Definition armed : State :=
  {| loop := false; io := 0; clock := 0; timer := Some 1800000; trace := [] |}.

Definition initial : State :=
  {| loop := false; io := 0; clock := 0; timer := None; trace := [] |}.


(** The sample configuration without the channel identifier. *)
Definition no_chat_cfg : Config :=
  {| TELEGRAM_BOT_TOKEN := Some "123:abc";
     TELEGRAM_CHAT_ID := None;
     QUICKNODE_WSS_URL := Some "wss://node.example/ws";
     TOKEN_CONTRACT_ADDRESS := Some "0x2119de8f257d27662991198389E15Bf8d1F4aB24" |}.

Open Scope list_scope.

(** * Properties *)

(** ** The constant and the conversion *)

Lemma MIN_BNB_PURCHASE_value :
  MIN_BNB_PURCHASE = 7205759403792794 # 288230376151711744.
Proof. reflexivity. Qed.

(** The stored minimum is a 53-bit mantissa over [2^58], within half a unit
    in the last place of [0.025], and strictly above it. *)
Lemma MIN_BNB_PURCHASE_is_nearest :
  (2 ^ 52 <= Qnum MIN_BNB_PURCHASE < 2 ^ 53)
  /\ Zpos (Qden MIN_BNB_PURCHASE) = 2 ^ 58
  /\ (25 # 1000 < MIN_BNB_PURCHASE)%Q
  /\ (MIN_BNB_PURCHASE - (25 # 1000) < 1 # Z.to_pos (2 ^ 59))%Q.
Proof.
  repeat split; try reflexivity; vm_compute; congruence.
Qed.

(** In wei, the comparison with the stored minimum is [25000000000000002 <= v]. *)
Lemma threshold_in_wei (v : Z) :
  Qle_bool MIN_BNB_PURCHASE (v # ether) = (25000000000000002 <=? v).
Proof.
  unfold Qle_bool, MIN_BNB_PURCHASE, ether; cbn [Qnum Qden].
  destruct (Z.leb_spec 25000000000000002 v) as [H | H].
  - apply Z.leb_le. lia.
  - apply Z.leb_gt. lia.
Qed.

Lemma fromWei_in_range (v : Z) :
  0 <= v <= MAX_WEI -> exists q, fromWei v = Ok q /\ (q == v # ether)%Q.
Proof.
  intros [Hlo Hhi]. unfold fromWei.
  destruct (Z.eqb_spec v 0) as [-> | Hnz].
  - exists (0 # 1). split; reflexivity.
  - replace (v <? 0) with false by (symmetry; apply Z.ltb_ge; lia).
    replace (MAX_WEI <? v) with false by (symmetry; apply Z.ltb_ge; lia).
    exists (v # ether). split; reflexivity.
Qed.

Lemma lower_nonempty (r a : string) :
  lower r = lower a -> a <> EmptyString -> r <> EmptyString.
Proof.
  intros H Ha ->. destruct a; [congruence | discriminate].
Qed.

Lemma truthy_nonempty (r : string) : r <> EmptyString -> truthy (Some r) = true.
Proof.
  intros H. unfold truthy. destruct (String.eqb_spec r EmptyString); [contradiction | reflexivity].
Qed.

(** [evaluate] raises only subclasses of [Exception]. *)
Lemma evaluate_raises_Exception cfg tx e :
  evaluate cfg tx = Raise e -> is_Exception e = true.
Proof.
  unfold evaluate, fromWei.
  destruct (tx_to tx) as [r |]; [| discriminate].
  destruct (negb (truthy (Some r))); [discriminate |].
  destruct (TOKEN_CONTRACT_ADDRESS cfg) as [a |].
  - destruct (lower r =? lower a)%string; [| discriminate].
    destruct (tx_value tx =? 0); [destruct (Qle_bool _ _); discriminate |].
    destruct ((tx_value tx <? 0) || (MAX_WEI <? tx_value tx)).
    + intros [= <-]. reflexivity.
    + destruct (Qle_bool _ _); discriminate.
  - intros [= <-]. reflexivity.
Qed.

(** What the check computes, for a validated watched address and a
    256-bit value: an event exactly when the recipient is present, equals
    the watched address up to case, and the value is at least
    [25000000000000002] wei, which is the stored minimum. *)
Lemma evaluate_exact cfg tx a :
  TOKEN_CONTRACT_ADDRESS cfg = Some a ->
  a <> EmptyString ->
  0 <= tx_value tx <= MAX_WEI ->
  (exists ev, evaluate cfg tx = Ok (Some ev)) <->
  (exists r, tx_to tx = Some r /\ lower r = lower a
             /\ 25000000000000002 <= tx_value tx).
Proof.
  intros Ha Hne Hv. unfold evaluate. rewrite Ha.
  destruct (tx_to tx) as [r |].
  2:{ split; [intros [ev H]; discriminate | intros (r & H & _); discriminate]. }
  destruct (String.eqb_spec (lower r) (lower a)) as [Heq | Hneq].
  - rewrite (truthy_nonempty r (lower_nonempty r a Heq Hne)). cbn [negb].
    unfold fromWei.
    destruct (Z.eqb_spec (tx_value tx) 0) as [H0 | H0].
    + cbn. split; [intros [ev H]; discriminate |].
      intros (r' & _ & _ & H). lia.
    + replace (tx_value tx <? 0) with false by (symmetry; apply Z.ltb_ge; lia).
      replace (MAX_WEI <? tx_value tx) with false by (symmetry; apply Z.ltb_ge; lia).
      cbn [orb]. rewrite threshold_in_wei.
      destruct (Z.leb_spec 25000000000000002 (tx_value tx)) as [H | H].
      * split; [intros _; exists r; auto | intros _; eexists; reflexivity].
      * split; [intros [ev He]; discriminate | intros (r' & _ & _ & H'); lia].
  - destruct (negb (truthy (Some r)));
      (split; [intros [ev H]; discriminate |]);
      intros (r' & [= <-] & H & _); contradiction.
Qed.

(** ** The threshold at the boundary *)

(** C1 (threshold evaluation, "event iff recipient present, equal up to
    case, and value at least 0.025"): the check follows the three
    conditions except next to the boundary.  A transfer to the watched
    address of [25000000000000000] or [25000000000000001] wei is worth at
    least 0.025 native units, and the check yields no event for it: the
    minimum it compares with is the binary64 value of the literal, which
    lies above 0.025. *)
Theorem evaluate_misses_values_at_minimum cfg tx a r :
  TOKEN_CONTRACT_ADDRESS cfg = Some a ->
  a <> EmptyString ->
  tx_to tx = Some r ->
  lower r = lower a ->
  25000000000000000 <= tx_value tx < 25000000000000002 ->
  (25 # 1000 <= native_value tx)%Q /\ evaluate cfg tx = Ok None.
Proof.
  intros Ha Hne Hr Hl Hv. split.
  - unfold native_value, Qle, ether; cbn [Qnum Qden]. lia.
  - assert (Hrange : 0 <= tx_value tx <= MAX_WEI) by (unfold MAX_WEI; lia).
    pose proof (evaluate_exact cfg tx a Ha Hne Hrange) as [Hex _].
    destruct (evaluate cfg tx) as [[ev |] | e] eqn:E.
    + destruct Hex as (r' & _ & _ & H); [eexists; reflexivity | lia].
    + reflexivity.
    + exfalso. revert E. unfold evaluate, fromWei. rewrite Hr, Ha.
      destruct (negb (truthy (Some r))); [discriminate |].
      destruct (lower r =? lower a)%string; [| discriminate].
      destruct (Z.eqb_spec (tx_value tx) 0); [lia |].
      replace (tx_value tx <? 0) with false by (symmetry; apply Z.ltb_ge; lia).
      replace (MAX_WEI <? tx_value tx) with false by (symmetry; apply Z.ltb_ge; lia).
      cbn [orb]. destruct (Qle_bool _ _); discriminate.
Qed.

Lemma evaluate_misses_values_at_minimum_witness :
  (25 # 1000 <= native_value (transfer to_watched 25000000000000001))%Q
  /\ evaluate watched_cfg (transfer to_watched 25000000000000001) = Ok None.
Proof.
  apply (evaluate_misses_values_at_minimum watched_cfg
           (transfer to_watched 25000000000000001)
           "0x2119de8f257d27662991198389E15Bf8d1F4aB24"
           "0x2119DE8F257D27662991198389E15BF8D1F4AB24").
  - reflexivity.
  - discriminate.
  - reflexivity.
  - reflexivity.
  - simpl. lia.
Defined.

(** C2 (a transfer of exactly 0.025 native units, [25000000000000000] wei,
    to the watched address qualifies): on the code it does not.  The
    conversion gives exactly 0.025, the stored minimum is
    [7205759403792794 / 2^58], which is larger, and the comparison is
    exact, so the check yields no event. *)
Theorem evaluate_at_exact_minimum cfg tx a r :
  TOKEN_CONTRACT_ADDRESS cfg = Some a ->
  tx_to tx = Some r ->
  r <> EmptyString ->
  lower r = lower a ->
  tx_value tx = 25000000000000000 ->
  fromWei (tx_value tx) = Ok (25000000000000000 # ether)
  /\ (25000000000000000 # ether == 25 # 1000)%Q
  /\ Qle_bool MIN_BNB_PURCHASE (25000000000000000 # ether) = false
  /\ evaluate cfg tx = Ok None.
Proof.
  intros Ha Hr Hne Hl Hv. unfold evaluate.
  rewrite Hr, Ha, Hl, String.eqb_refl, (truthy_nonempty r Hne), Hv.
  repeat split.
Qed.

Lemma evaluate_at_exact_minimum_witness :
  evaluate watched_cfg (transfer to_watched 25000000000000000) = Ok None.
Proof.
  apply (evaluate_at_exact_minimum watched_cfg
           (transfer to_watched 25000000000000000)
           "0x2119de8f257d27662991198389E15Bf8d1F4aB24"
           "0x2119DE8F257D27662991198389E15BF8D1F4AB24");
    first [reflexivity | discriminate].
Defined.

(** ** Contract creations *)

(** C4 (recipient absent: no alert, no error): the check returns
    normally with no event whatever the value and the configuration, and
    the loop goes on to the next transaction with the world untouched. *)
Theorem evaluate_recipient_absent cfg env tx :
  tx_to tx = None ->
  evaluate cfg tx = Ok None
  /\ forall rest s,
       for_transactions cfg env (tx :: rest) s = for_transactions cfg env rest s.
Proof.
  intros H. assert (E : evaluate cfg tx = Ok None) by (unfold evaluate; now rewrite H).
  split; [exact E |].
  intros rest s. cbn [for_transactions]. unfold bind, lift. rewrite E.
  unfold ret. reflexivity.
Qed.


Lemma evaluate_recipient_absent_witness :
  evaluate watched_cfg (transfer None 50000000000000000) = Ok None.
Proof.
  destruct (evaluate_recipient_absent watched_cfg sample_env
              (transfer None 50000000000000000) eq_refl) as [H _].
  exact H.
Defined.

(** ** [asyncio.run] and the running loop *)

Lemma asyncio_run_in_loop {A} (c : M A) s :
  loop s = true -> asyncio_run c s = (Raise RuntimeError, s).
Proof. intros H. unfold asyncio_run. now rewrite H. Qed.

Lemma asyncio_run_outside {A} (c : M A) s r s' :
  loop s = false ->
  c (set_loop true s) = (r, s') ->
  asyncio_run c s = (r, set_loop false s').
Proof. intros H Hc. unfold asyncio_run. now rewrite H, Hc. Qed.

(** ** Alerts of a block *)

Lemma notifier_calls_app (t1 t2 : list (Z * event)) :
  notifier_calls (t1 ++ t2) = notifier_calls t1 ++ notifier_calls t2.
Proof. unfold notifier_calls. now rewrite map_app, filter_app. Qed.

Lemma evaluate_total cfg tx a :
  TOKEN_CONTRACT_ADDRESS cfg = Some a ->
  0 <= tx_value tx <= MAX_WEI ->
  exists q, evaluate cfg tx = Ok q.
Proof.
  intros Ha Hv. unfold evaluate, fromWei. rewrite Ha.
  destruct (tx_to tx) as [r |]; [| eexists; reflexivity].
  destruct (negb (truthy (Some r))); [eexists; reflexivity |].
  destruct (lower r =? lower a)%string; [| eexists; reflexivity].
  destruct (tx_value tx =? 0).
  - destruct (Qle_bool _ _); eexists; reflexivity.
  - replace (tx_value tx <? 0) with false by (symmetry; apply Z.ltb_ge; lia).
    replace (MAX_WEI <? tx_value tx) with false by (symmetry; apply Z.ltb_ge; lia).
    cbn [orb]. destruct (Qle_bool _ _); eexists; reflexivity.
Qed.

Section Alerts.

Variable cfg : Config.
Variable env : Env.

(** A failed send is swallowed by [send_telegram_alert]. *)
Lemma send_telegram_alert_failed tx_hash amount buyer e s :
  bot_reply env (io s) = Raise e ->
  is_Exception e = true ->
  send_telegram_alert cfg env tx_hash amount buyer s
  = (Ok tt, after_failed_alert cfg env (buy_alert_caption tx_hash amount buyer) e s).
Proof.
  intros Hr He.
  unfold send_telegram_alert, try_except, bind, bot_send_photo, external.
  rewrite Hr. cbn [dispatch]. unfold after_failed_alert.
  destruct e; try discriminate; reflexivity.
Qed.

(** Whatever the Bot API answers, [send_telegram_alert] returns normally,
    having made exactly one call. *)
Lemma send_telegram_alert_returns tx_hash amount buyer s :
  bot_never_interrupted env ->
  exists s',
    send_telegram_alert cfg env tx_hash amount buyer s = (Ok tt, s')
    /\ io s' = S (io s)
    /\ loop s' = loop s
    /\ notifier_calls (trace s')
       = notifier_calls (trace s)
         ++ [EvSendPhoto (TELEGRAM_CHAT_ID cfg) AGAMA_LOGO_URL
               (buy_alert_caption tx_hash amount buyer)].
Proof.
  intros Hbot.
  destruct (bot_reply env (io s)) as [[] | e] eqn:Hr.
  - eexists. split; [| split; [| split]].
    + unfold send_telegram_alert, try_except, bind, bot_send_photo, external.
      rewrite Hr. reflexivity.
    + reflexivity.
    + reflexivity.
    + cbn [trace]. now rewrite !notifier_calls_app, app_nil_r.
  - exists (after_failed_alert cfg env (buy_alert_caption tx_hash amount buyer) e s).
    split; [| split; [| split]].
    + apply send_telegram_alert_failed; [exact Hr | exact (Hbot _ _ Hr)].
    + reflexivity.
    + reflexivity.
    + cbn [after_failed_alert trace]. now rewrite !notifier_calls_app, app_nil_r.
Qed.

Lemma for_transactions_unfold_qualifying tx ev rest s :
  evaluate cfg tx = Ok (Some ev) ->
  for_transactions cfg env (tx :: rest) s
  = match asyncio_run (send_telegram_alert cfg env (ev_tx_hash ev) (ev_amount ev)
                         (ev_buyer ev)) (found ev s) with
    | (Ok _, s') => for_transactions cfg env rest s'
    | (Raise e, s') => (Raise e, s')
    end.
Proof.
  intros E. cbn [for_transactions]. unfold bind at 1 2. unfold lift. rewrite E.
  unfold bind at 1. unfold found, print at 1 2, log at 1 2. cbn [snd].
  reflexivity.
Qed.

(** Outside a running loop: the alert of a qualifying transaction is
    attempted, and the loop goes on with the rest whatever the outcome of
    the send. *)
Lemma for_transactions_qualifying tx ev rest s :
  bot_never_interrupted env ->
  loop s = false ->
  evaluate cfg tx = Ok (Some ev) ->
  exists s',
    for_transactions cfg env (tx :: rest) s = for_transactions cfg env rest s'
    /\ loop s' = false
    /\ notifier_calls (trace s') = notifier_calls (trace s) ++ [buy_alert cfg ev].
Proof.
  intros Hbot Hl E.
  destruct (send_telegram_alert_returns (ev_tx_hash ev) (ev_amount ev) (ev_buyer ev)
              (set_loop true (found ev s)) Hbot)
    as (s1 & Hs & _ & _ & Hc).
  exists (set_loop false s1). split; [| split].
  - rewrite (for_transactions_unfold_qualifying tx ev rest s E).
    now rewrite (asyncio_run_outside _ (found ev s) (Ok tt) s1 Hl Hs).
  - reflexivity.
  - cbn [set_loop trace]. rewrite Hc. unfold found, print, log.
    cbn [snd set_loop trace]. now rewrite notifier_calls_app, app_nil_r.
Qed.

(** Inside a running loop: [asyncio.run] raises before the alert is
    attempted, and the loop over the block ends there. *)
Lemma for_transactions_qualifying_in_loop tx ev rest s :
  loop s = true ->
  evaluate cfg tx = Ok (Some ev) ->
  for_transactions cfg env (tx :: rest) s = (Raise RuntimeError, found ev s).
Proof.
  intros Hl E. rewrite (for_transactions_unfold_qualifying tx ev rest s E).
  now rewrite asyncio_run_in_loop.
Qed.

Lemma for_transactions_skip tx rest s :
  evaluate cfg tx = Ok None ->
  for_transactions cfg env (tx :: rest) s = for_transactions cfg env rest s.
Proof.
  intros E. cbn [for_transactions]. unfold bind, lift. now rewrite E.
Qed.

Lemma for_transactions_raise_here tx rest e s :
  evaluate cfg tx = Raise e ->
  for_transactions cfg env (tx :: rest) s = (Raise e, s).
Proof.
  intros E. cbn [for_transactions]. unfold bind, lift. now rewrite E.
Qed.

(** Outside a running loop, over transactions none of which makes the
    check raise: one alert per event of the check, in order. *)
Lemma for_transactions_alerts txs :
  bot_never_interrupted env ->
  (forall tx, In tx txs -> exists q, evaluate cfg tx = Ok q) ->
  forall s,
    loop s = false ->
    exists s',
      for_transactions cfg env txs s = (Ok tt, s')
      /\ loop s' = false
      /\ notifier_calls (trace s')
         = notifier_calls (trace s) ++ map (buy_alert cfg) (qualifying cfg txs).
Proof.
  intros Hbot. induction txs as [| tx rest IH]; intros Hok s Hl.
  - exists s. split; [reflexivity | split; [exact Hl | now rewrite app_nil_r]].
  - destruct (Hok tx (or_introl eq_refl)) as [[ev |] E].
    + destruct (for_transactions_qualifying tx ev rest s Hbot Hl E) as (s1 & H1 & L1 & C1).
      destruct (IH (fun t Ht => Hok t (or_intror Ht)) s1 L1) as (s' & H2 & L2 & C2).
      exists s'. split; [now rewrite H1 | split; [exact L2 |]].
      rewrite C2, C1. cbn [qualifying flat_map]. rewrite E.
      cbn [app map]. now rewrite <- app_assoc.
    + destruct (IH (fun t Ht => Hok t (or_intror Ht)) s Hl) as (s' & H2 & L2 & C2).
      exists s'. split; [now rewrite for_transactions_skip | split; [exact L2 |]].
      rewrite C2. cbn [qualifying flat_map]. now rewrite E.
Qed.

(** Inside a running loop, a block with an event of the check: the loop
    ends with [RuntimeError] and no Bot API call has been made. *)
Lemma for_transactions_in_loop txs :
  (forall tx, In tx txs -> exists q, evaluate cfg tx = Ok q) ->
  qualifying cfg txs <> [] ->
  forall s,
    loop s = true ->
    exists s',
      for_transactions cfg env txs s = (Raise RuntimeError, s')
      /\ notifier_calls (trace s') = notifier_calls (trace s).
Proof.
  induction txs as [| tx rest IH]; intros Hok Hq s Hl; [now elim Hq |].
  destruct (Hok tx (or_introl eq_refl)) as [[ev |] E].
  - exists (found ev s). split; [now apply for_transactions_qualifying_in_loop |].
    unfold found, print, log. cbn [snd trace].
    now rewrite notifier_calls_app, app_nil_r.
  - rewrite (for_transactions_skip tx rest s E).
    apply IH; [intros t Ht; apply Hok; now right | | exact Hl].
    cbn [qualifying flat_map] in Hq. now rewrite E in Hq.
Qed.

(** Up to a transaction on which the check raises: an exception, the
    alerts of the transactions before it when no loop is running and none
    when one is, and nothing of the transactions after it. *)
Lemma for_transactions_stops pre tx post e :
  bot_never_interrupted env ->
  (forall t, In t pre -> exists q, evaluate cfg t = Ok q) ->
  evaluate cfg tx = Raise e ->
  forall s, exists e' s',
    for_transactions cfg env (pre ++ tx :: post) s = (Raise e', s')
    /\ is_Exception e' = true
    /\ notifier_calls (trace s')
       = notifier_calls (trace s)
         ++ (if loop s then [] else map (buy_alert cfg) (qualifying cfg pre)).
Proof.
  intros Hbot Hpre E. induction pre as [| t pre IH]; intros s.
  - exists e, s. split; [now apply for_transactions_raise_here |].
    split; [exact (evaluate_raises_Exception _ _ _ E) |].
    destruct (loop s); now rewrite app_nil_r.
  - destruct (Hpre t (or_introl eq_refl)) as [[ev |] Et].
    + destruct (loop s) eqn:Hl.
      * exists RuntimeError, (found ev s). split; [| split; [reflexivity |]].
        -- cbn [app]. now apply for_transactions_qualifying_in_loop.
        -- unfold found, print, log. cbn [snd trace].
           now rewrite notifier_calls_app, !app_nil_r.
      * destruct (for_transactions_qualifying t ev (pre ++ tx :: post) s Hbot Hl Et)
          as (s1 & H1 & L1 & C1).
        destruct (IH (fun u Hu => Hpre u (or_intror Hu)) s1) as (e' & s' & H2 & He' & C2).
        exists e', s'. split; [cbn [app]; now rewrite H1 | split; [exact He' |]].
        rewrite C2, C1, L1. cbn [qualifying flat_map]. rewrite Et.
        cbn [app map]. now rewrite <- app_assoc.
    + destruct (IH (fun u Hu => Hpre u (or_intror Hu)) s) as (e' & s' & H2 & He' & C2).
      exists e', s'. split; [cbn [app]; now rewrite for_transactions_skip |].
      split; [exact He' |]. rewrite C2. cbn [qualifying flat_map]. now rewrite Et.
Qed.

End Alerts.

(** ** The running loop is the listener's *)

Lemma keeps_loop_bind {A B} (m : M A) (k : A -> M B) :
  keeps_loop m -> (forall a, keeps_loop (k a)) -> keeps_loop (bind m k).
Proof.
  intros Hm Hk s. unfold bind. specialize (Hm s).
  destruct (m s) as [[a | e] s1]; cbn [snd] in *; [| exact Hm].
  now rewrite Hk.
Qed.

Lemma keeps_loop_dispatch {A} (hs : list ((exn -> bool) * (exn -> M A))) e :
  Forall (fun h => forall e', keeps_loop (snd h e')) hs ->
  keeps_loop (dispatch hs e).
Proof.
  induction 1 as [| [matches h] hs Hh _ IH]; cbn [dispatch].
  - intros s. reflexivity.
  - destruct (matches e); [apply Hh | exact IH].
Qed.

Lemma keeps_loop_try_except {A} (body : M A) hs :
  keeps_loop body ->
  Forall (fun h => forall e', keeps_loop (snd h e')) hs ->
  keeps_loop (try_except body hs).
Proof.
  intros Hb Hh s. unfold try_except. specialize (Hb s).
  destruct (body s) as [[a | e] s1]; cbn [snd] in *; [exact Hb |].
  now rewrite (keeps_loop_dispatch hs e Hh).
Qed.

Lemma keeps_loop_asyncio_run {A} (c : M A) : keeps_loop (asyncio_run c).
Proof.
  intros s. unfold asyncio_run. destruct (loop s) eqn:Hl; [exact Hl |].
  now destruct (c (set_loop true s)).
Qed.

Create HintDb loop.
#[local] Hint Resolve keeps_loop_asyncio_run : loop.
#[local] Hint Extern 1 (keeps_loop (print _)) => intros ?; reflexivity : loop.
#[local] Hint Extern 1 (keeps_loop (log _)) => intros ?; reflexivity : loop.
#[local] Hint Extern 1 (keeps_loop (sleep _)) => intros ?; reflexivity : loop.
#[local] Hint Extern 1 (keeps_loop (ret _)) => intros ?; reflexivity : loop.
#[local] Hint Extern 1 (keeps_loop (raise _)) => intros ?; reflexivity : loop.
#[local] Hint Extern 1 (keeps_loop (lift _)) => intros ?; reflexivity : loop.
#[local] Hint Extern 1 (keeps_loop (external _ _ _)) => intros ?; reflexivity : loop.
#[local] Hint Extern 2 (keeps_loop (bind _ _)) =>
  apply keeps_loop_bind; [| intros ?] : loop.
#[local] Hint Extern 2 (keeps_loop (try_except _ _)) =>
  apply keeps_loop_try_except; [| repeat constructor; intros ?; cbn [snd]] : loop.

Lemma for_transactions_keeps_loop cfg env txs :
  keeps_loop (for_transactions cfg env txs).
Proof.
  induction txs as [| tx rest IH]; cbn [for_transactions]; [auto with loop |].
  apply keeps_loop_bind; [auto with loop | intros q].
  apply keeps_loop_bind; [| intros _; exact IH].
  destruct q; auto with loop.
Qed.

Lemma handle_new_block_keeps_loop cfg env n :
  keeps_loop (handle_new_block cfg env n).
Proof.
  unfold handle_new_block, get_block.
  apply keeps_loop_try_except; [| repeat constructor; intros ?; cbn [snd]; auto with loop].
  apply keeps_loop_bind; [auto with loop | intros block].
  apply keeps_loop_bind; [auto with loop | intros _].
  apply for_transactions_keeps_loop.
Qed.

Lemma receive_step_keeps_loop cfg env : keeps_loop (receive_step cfg env).
Proof.
  unfold receive_step.
  apply keeps_loop_try_except.
  - apply keeps_loop_bind; [auto with loop | intros n].
    apply keeps_loop_bind; [apply handle_new_block_keeps_loop | auto with loop].
  - repeat constructor; intros ?; cbn [snd]; auto 6 with loop.
Qed.

(** Every pass of the receive loop runs with the flag the loop was
    entered with. *)
Lemma receive_loop_keeps_loop cfg env fuel :
  forall s r s', receive_loop cfg env fuel s = Some (r, s') -> loop s' = loop s.
Proof.
  induction fuel as [| fuel IH]; intros s r s'; cbn [receive_loop]; [discriminate |].
  pose proof (receive_step_keeps_loop cfg env s) as Hk.
  destruct (receive_step cfg env s) as [[[] | e] s1]; cbn [snd] in Hk.
  - intros H. rewrite <- Hk. exact (IH _ _ _ H).
  - now intros [= _ <-].
  - now intros [= _ <-].
Qed.

(** A start-up that goes through. *)
Lemma startup_ok cfg env s :
  forallb truthy (required cfg) = true ->
  is_connected_reply env (io s) = Ok true ->
  startup cfg env s = (Ok tt, after_startup env s).
Proof.
  intros Hc Hr.
  unfold startup, try_except, bind, print, log, external, ret, Timer_start.
  rewrite Hc. cbn [negb io clock timer trace loop]. rewrite Hr.
  cbn [negb io clock timer trace loop]. unfold after_startup.
  now rewrite <- !app_assoc.
Qed.

(** The entry point runs the listener inside the event loop it starts. *)
Lemma main_runs_listener_in_loop cfg env fuel s :
  loop s = false ->
  Bot_new env (TELEGRAM_BOT_TOKEN cfg) = Ok tt ->
  forallb truthy (required cfg) = true ->
  is_connected_reply env (io s) = Ok true ->
  loop (set_loop true (after_startup env s)) = true
  /\ main cfg env fuel s
     = match listen_for_new_blocks cfg env fuel (set_loop true (after_startup env s)) with
       | Some (r, s') => Some (r, set_loop false s')
       | None => None
       end.
Proof.
  intros Hl Hb Hc Hr. split; [reflexivity |].
  unfold main, module_init, bind at 1, lift. rewrite Hb.
  rewrite (startup_ok cfg env s Hc Hr). unfold asyncio_run_fuel.
  cbn [after_startup loop]. now rewrite Hl.
Qed.

(** ** A block processed by the listener *)

(** X6 (lines 105-121): called where no event loop is running, with the
    block fetched and 256-bit values, [handle_new_block] returns normally
    and the Bot API calls it makes are the alerts of the events of the
    check, one each, in the order of the transactions, whatever the
    outcome of each send. *)
Lemma handle_new_block_alerts cfg env a n block s :
  loop s = false ->
  TOKEN_CONTRACT_ADDRESS cfg = Some a ->
  bot_never_interrupted env ->
  get_block_reply env (io s) n = Ok block ->
  (forall tx, In tx (transactions block) -> 0 <= tx_value tx <= MAX_WEI) ->
  exists s',
    handle_new_block cfg env n s = (Ok tt, s')
    /\ notifier_calls (trace s')
       = notifier_calls (trace s)
         ++ map (buy_alert cfg) (qualifying cfg (transactions block)).
Proof.
  intros Hl Ha Hbot Hb Hv.
  set (s0 := {| loop := loop s; io := S (io s);
                clock := clock s + latency env (io s); timer := timer s;
                trace := (trace s ++ [(clock s, EvGetBlock n)])
                         ++ [(clock s + latency env (io s),
                              EvPrint (ProcessingBlock n (List.length (transactions block))))] |}).
  destruct (for_transactions_alerts cfg env (transactions block) Hbot
              (fun tx Hin => evaluate_total cfg tx a Ha (Hv tx Hin)) s0 Hl)
    as (s' & Hrun & _ & Hcalls).
  exists s'. split.
  - unfold handle_new_block, try_except, bind at 1, get_block, external.
    rewrite Hb. unfold bind, print, log. cbn [loop io clock timer trace].
    fold s0. now rewrite Hrun.
  - rewrite Hcalls. subst s0. cbn [trace].
    now rewrite !notifier_calls_app, !app_nil_r.
Qed.

(** C3 (N qualifying transactions give exactly N buy alerts): the
    listener calls [handle_new_block] from inside the event loop the entry
    point started, and there [asyncio.run] raises [RuntimeError] at the
    first event of the check.  The handler logs it as an error of the
    block and returns: a block with events of the check, fetched and
    checked without error, adds no Bot API call to the trace. *)
Theorem alerts_lost_in_running_loop cfg env a n block s :
  loop s = true ->
  TOKEN_CONTRACT_ADDRESS cfg = Some a ->
  get_block_reply env (io s) n = Ok block ->
  (forall tx, In tx (transactions block) -> 0 <= tx_value tx <= MAX_WEI) ->
  qualifying cfg (transactions block) <> [] ->
  exists s',
    handle_new_block cfg env n s = (Ok tt, s')
    /\ notifier_calls (trace s') = notifier_calls (trace s)
    /\ last (map snd (trace s')) EvReceive
       = EvPrint (ErrorHandlingBlock n RuntimeError).
Proof.
  intros Hl Ha Hb Hv Hq.
  set (s0 := {| loop := loop s; io := S (io s);
                clock := clock s + latency env (io s); timer := timer s;
                trace := (trace s ++ [(clock s, EvGetBlock n)])
                         ++ [(clock s + latency env (io s),
                              EvPrint (ProcessingBlock n (List.length (transactions block))))] |}).
  destruct (for_transactions_in_loop cfg env (transactions block)
              (fun tx Hin => evaluate_total cfg tx a Ha (Hv tx Hin)) Hq s0 Hl)
    as (s1 & Hrun & Hcalls).
  eexists. split; [| split].
  - unfold handle_new_block, try_except, bind at 1, get_block, external.
    rewrite Hb. unfold bind, print at 1, log at 1. cbn [loop io clock timer trace].
    fold s0. rewrite Hrun. cbn [dispatch is_Exception]. reflexivity.
  - cbn [trace]. rewrite notifier_calls_app, Hcalls. subst s0. cbn [trace].
    now rewrite !notifier_calls_app, !app_nil_r.
  - cbn [trace]. rewrite map_app. cbn [map snd]. now rewrite last_last.
Qed.

Lemma alerts_lost_in_running_loop_witness :
  List.length (qualifying watched_cfg (transactions sample_block)) = 2%nat
  /\ exists s',
       handle_new_block watched_cfg live_env 7 (set_loop true initial) = (Ok tt, s')
       /\ notifier_calls (trace s') = [].
Proof.
  split; [reflexivity |].
  destruct (alerts_lost_in_running_loop watched_cfg live_env
              "0x2119de8f257d27662991198389E15Bf8d1F4aB24" 7 sample_block
              (set_loop true initial))
    as (s' & Hrun & Hcalls & _).
  - reflexivity.
  - reflexivity.
  - reflexivity.
  - intros tx Hin. cbn in Hin. unfold MAX_WEI.
    repeat (destruct Hin as [<- | Hin]; [cbn; lia |]). destruct Hin.
  - discriminate.
  - exists s'. split; [exact Hrun | exact Hcalls].
Defined.

(** The whole program on a world in which everything works and one block
    with two events of the check arrives: it ends by cancellation having
    made no Bot API call. *)
Lemma main_sends_no_alert :
  exists s',
    main watched_cfg live_env 3 initial = Some (Ok tt, s')
    /\ notifier_calls (trace s') = []
    /\ In (EvPrint (ErrorHandlingBlock 7 RuntimeError)) (map snd (trace s')).
Proof.
  eexists. split; [vm_compute; reflexivity |].
  split; [reflexivity |]. cbn. tauto.
Qed.

(** ** Failures while a block is processed *)

(** No subclass of [Exception] leaves [handle_new_block]. *)
Lemma handle_new_block_catches cfg env n s e s' :
  handle_new_block cfg env n s = (Raise e, s') -> is_Exception e = false.
Proof.
  unfold handle_new_block, try_except.
  destruct (bind _ _ s) as [[u | e0] s0]; [discriminate |].
  cbn [dispatch]. destruct (is_Exception e0) eqn:He0.
  - unfold print, log. discriminate.
  - unfold raise. now intros [= <- _].
Qed.

(** No subclass of [Exception] leaves one pass of the receive loop. *)
Lemma receive_step_catches cfg env s e s' :
  receive_step cfg env s = (Raise e, s') -> is_Exception e = false.
Proof.
  unfold receive_step, try_except.
  destruct (bind _ _ s) as [[b | e0] s0]; [discriminate |].
  cbn [dispatch]. destruct (is_CancelledError e0).
  - unfold bind, print, log, ret. discriminate.
  - destruct (is_Exception e0) eqn:He0.
    + unfold bind, print, log, sleep, ret. discriminate.
    + unfold raise. now intros [= <- _].
Qed.

(** The receive loop ends only by cancellation or by an exception that
    is no subclass of [Exception]. *)
Lemma receive_loop_catches cfg env fuel :
  forall s e s',
    receive_loop cfg env fuel s = Some (Raise e, s') -> is_Exception e = false.
Proof.
  induction fuel as [| fuel IH]; intros s e s'; cbn [receive_loop]; [discriminate |].
  destruct (receive_step cfg env s) as [[[] | e0] s0] eqn:Hstep.
  - apply IH.
  - discriminate.
  - intros [= <- _]. exact (receive_step_catches _ _ _ _ _ Hstep).
Qed.

(** C5 (a delivery failure of a buy alert is swallowed in the notifier):
    when the Bot API call raises [TelegramError], [send_telegram_alert]
    logs it and returns normally; where the alert is sent (no loop
    running), the loop over the block goes on with the remaining
    transactions; and no [TelegramError] leaves the block handler, a pass
    of the receive loop, or the receive loop. *)
Theorem buy_alert_failure_is_swallowed cfg env s :
  bot_reply env (io s) = Raise TelegramError ->
  (forall tx_hash amount buyer,
      send_telegram_alert cfg env tx_hash amount buyer s
      = (Ok tt, after_failed_alert cfg env
                  (buy_alert_caption tx_hash amount buyer) TelegramError s))
  /\ (forall tx ev rest,
         loop s = false ->
         evaluate cfg tx = Ok (Some ev) ->
         for_transactions cfg env (tx :: rest) s
         = for_transactions cfg env rest
             (set_loop false
                (after_failed_alert cfg env
                   (buy_alert_caption (ev_tx_hash ev) (ev_amount ev) (ev_buyer ev))
                   TelegramError (set_loop true (found ev s)))))
  /\ (forall n s0 s1, handle_new_block cfg env n s0 <> (Raise TelegramError, s1))
  /\ (forall s0 s1, receive_step cfg env s0 <> (Raise TelegramError, s1))
  /\ (forall fuel s0 s1,
         receive_loop cfg env fuel s0 <> Some (Raise TelegramError, s1)).
Proof.
  intros Hr. split; [| split; [| split; [| split]]].
  - intros h a b. now apply send_telegram_alert_failed.
  - intros tx ev rest Hl E.
    rewrite (for_transactions_unfold_qualifying cfg env tx ev rest s E).
    rewrite (asyncio_run_outside _ (found ev s) (Ok tt)
               (after_failed_alert cfg env
                  (buy_alert_caption (ev_tx_hash ev) (ev_amount ev) (ev_buyer ev))
                  TelegramError (set_loop true (found ev s)))).
    + reflexivity.
    + exact Hl.
    + apply send_telegram_alert_failed; [exact Hr | reflexivity].
  - intros n s0 s1 H. apply handle_new_block_catches in H. discriminate.
  - intros s0 s1 H. apply receive_step_catches in H. discriminate.
  - intros fuel s0 s1 H. apply receive_loop_catches in H. discriminate.
Qed.

Lemma buy_alert_failure_is_swallowed_witness :
  fst (send_telegram_alert watched_cfg sample_env "0x61626364" (3 # 100)
         "0x00000000000000000000000000000000000000b1" initial)
  = Ok tt.
Proof.
  destruct (buy_alert_failure_is_swallowed watched_cfg sample_env initial eq_refl)
    as [H _].
  now rewrite H.
Defined.

(** C9 (isolation is per block): when the check raises on a transaction of
    a block, the handler sends no alert for the transactions after it
    (and, inside the running loop, none at all); it logs the error of the
    block and returns normally, so the receive loop goes round again for
    the next header. *)
Theorem error_in_block_skips_rest cfg env n block pre tx post e s fuel :
  bot_never_interrupted env ->
  receive_reply env (io s) = Ok n ->
  get_block_reply env (S (io s)) n = Ok block ->
  transactions block = pre ++ tx :: post ->
  (forall t, In t pre -> exists q, evaluate cfg t = Ok q) ->
  evaluate cfg tx = Raise e ->
  exists e' s',
    handle_new_block cfg env n (after_receive env s) = (Ok tt, s')
    /\ notifier_calls (trace s')
       = notifier_calls (trace s)
         ++ (if loop s then [] else map (buy_alert cfg) (qualifying cfg pre))
    /\ last (map snd (trace s')) EvReceive = EvPrint (ErrorHandlingBlock n e')
    /\ receive_step cfg env s = (Ok true, s')
    /\ receive_loop cfg env (S fuel) s = receive_loop cfg env fuel s'.
Proof.
  intros Hbot Hrecv Hget Htxs Hpre E.
  set (s0 := after_receive env s).
  set (s1 := {| loop := loop s0; io := S (io s0);
                clock := clock s0 + latency env (io s0); timer := timer s0;
                trace := (trace s0 ++ [(clock s0, EvGetBlock n)])
                         ++ [(clock s0 + latency env (io s0),
                              EvPrint (ProcessingBlock n (List.length (transactions block))))] |}).
  destruct (for_transactions_stops cfg env pre tx post e Hbot Hpre E s1)
    as (e' & s2 & Hrun & He' & Hcalls).
  set (s' := {| loop := loop s2; io := io s2; clock := clock s2; timer := timer s2;
                trace := trace s2 ++ [(clock s2, EvPrint (ErrorHandlingBlock n e'))] |}).
  assert (Hh : handle_new_block cfg env n s0 = (Ok tt, s')).
  { unfold handle_new_block, try_except, bind at 1, get_block, external.
    change (io s0) with (S (io s)). rewrite Hget.
    unfold bind, print at 1, log at 1. cbn [loop io clock timer trace].
    change (S (io s)) with (io s0). fold s1. rewrite Htxs, Hrun.
    cbn [dispatch]. rewrite He'. reflexivity. }
  assert (Hstep : receive_step cfg env s = (Ok true, s')).
  { unfold receive_step, try_except, bind at 1, external. rewrite Hrecv.
    fold (after_receive env s). fold s0. unfold bind. rewrite Hh. reflexivity. }
  exists e', s'. split; [exact Hh | split; [| split; [| split]]].
  - subst s'. cbn [trace]. rewrite notifier_calls_app, Hcalls. subst s1 s0.
    unfold after_receive. cbn [trace loop].
    now rewrite !notifier_calls_app, !app_nil_r.
  - subst s'. cbn [trace]. rewrite map_app. cbn [map snd]. now rewrite last_last.
  - exact Hstep.
  - cbn [receive_loop]. now rewrite Hstep.
Qed.

Lemma error_in_block_skips_rest_witness :
  exists s',
    receive_step watched_cfg sample_env initial = (Ok true, s')
    /\ List.length (notifier_calls (trace s')) = 1%nat.
Proof.
  destruct (error_in_block_skips_rest watched_cfg sample_env 8 broken_block
              [transfer to_watched 30000000000000000]
              (transfer to_watched (2 ^ 256))
              [transfer to_watched 1000000000000000000]
              ValueError initial 0)
    as (e' & s' & _ & Hcalls & _ & Hstep & _).
  - intros k e [= <-]. reflexivity.
  - reflexivity.
  - reflexivity.
  - reflexivity.
  - intros t [<- | []]. eexists. reflexivity.
  - reflexivity.
  - exists s'. split; [exact Hstep |]. now rewrite Hcalls.
Defined.

(** ** Reconnection *)

Lemma sleeps_app (t1 t2 : list (Z * event)) :
  sleeps (t1 ++ t2) = sleeps t1 ++ sleeps t2.
Proof. apply flat_map_app. Qed.

Lemma connects_app (t1 t2 : list (Z * event)) :
  connects (t1 ++ t2) = connects t1 ++ connects t2.
Proof. apply flat_map_app. Qed.

(** An attempt that succeeds enters the receive loop. *)
Lemma listen_connected cfg env fuel s :
  connect_reply env (io s) = Ok tt ->
  listen_for_new_blocks cfg env (S fuel) s
  = receive_loop cfg env fuel (after_attempt cfg env s).
Proof.
  intros Hr. cbn [listen_for_new_blocks].
  unfold bind, print, log, external. cbn [loop io clock timer trace].
  rewrite Hr. cbn [loop io clock timer trace]. unfold after_attempt.
  rewrite <- !app_assoc. cbn [app].
  destruct (receive_loop cfg env fuel _) as [[[u | e] s'] |] eqn:Hloop;
    try reflexivity.
  now rewrite (receive_loop_catches _ _ _ _ _ _ Hloop).
Qed.

(** Inside a running loop, the retry after a failed attempt raises. *)
Lemma listen_failed_attempt_in_loop cfg env fuel s e :
  loop s = true ->
  connect_reply env (io s) = Raise e ->
  is_Exception e = true ->
  listen_for_new_blocks cfg env (S fuel) s
  = Some (Raise RuntimeError, after_failed_attempt cfg env e s).
Proof.
  intros Hl Hr He. cbn [listen_for_new_blocks].
  unfold bind, print, log, external, sleep, asyncio_run_fuel, after_failed_attempt.
  cbn [loop io clock timer trace]. rewrite Hr, He.
  cbn [loop io clock timer trace]. rewrite Hl.
  now rewrite <- !app_assoc.
Qed.

(** C6 (a failed connection is retried after five seconds, again and
    again): the listener is a coroutine, so it runs inside an event loop;
    after a failed attempt it logs the failure, waits five seconds and
    calls [asyncio.run] for the retry, which raises [RuntimeError] inside
    the running loop.  The listener ends with that exception after one
    attempt and one wait; there is no second attempt. *)
Theorem retry_raises_in_running_loop cfg env fuel s e :
  loop s = true ->
  connect_reply env (io s) = Raise e ->
  is_Exception e = true ->
  let s' := after_failed_attempt cfg env e s in
  listen_for_new_blocks cfg env (S fuel) s = Some (Raise RuntimeError, s')
  /\ connects (trace s') = connects (trace s) ++ [clock s]
  /\ sleeps (trace s') = sleeps (trace s) ++ [5]
  /\ io s' = S (io s)
  /\ exit_status (Raise RuntimeError) = 1.
Proof.
  intros Hl Hr He s'. subst s'. repeat match goal with |- _ /\ _ => split end.
  - now apply listen_failed_attempt_in_loop.
  - cbn [after_failed_attempt trace]. now rewrite connects_app.
  - cbn [after_failed_attempt trace]. now rewrite sleeps_app.
  - reflexivity.
  - reflexivity.
Qed.

Lemma retry_raises_in_running_loop_witness :
  listen_for_new_blocks watched_cfg sample_env 10 (set_loop true initial)
  = Some (Raise RuntimeError,
          after_failed_attempt watched_cfg sample_env (OtherException "refused")
            (set_loop true initial)).
Proof.
  destruct (retry_raises_in_running_loop watched_cfg sample_env 9
              (set_loop true initial) (OtherException "refused"))
    as [H _]; [reflexivity | reflexivity | reflexivity | exact H].
Defined.

(** The whole program when the first connection attempt fails: start-up,
    one attempt, one wait of five seconds, and the process ends with
    [RuntimeError], whatever the fuel. *)
Lemma main_ends_after_first_failed_connection cfg env fuel s e :
  loop s = false ->
  Bot_new env (TELEGRAM_BOT_TOKEN cfg) = Ok tt ->
  forallb truthy (required cfg) = true ->
  is_connected_reply env (io s) = Ok true ->
  connect_reply env (S (io s)) = Raise e ->
  is_Exception e = true ->
  main cfg env (S fuel) s
  = Some (Raise RuntimeError,
          set_loop false
            (after_failed_attempt cfg env e (set_loop true (after_startup env s)))).
Proof.
  intros Hl Hb Hc Hi Hr He.
  destruct (main_runs_listener_in_loop cfg env (S fuel) s Hl Hb Hc Hi) as [Hin ->].
  now rewrite (listen_failed_attempt_in_loop cfg env fuel
                 (set_loop true (after_startup env s)) e Hin Hr He).
Qed.

(** ** The reminder timer *)

Section Reminder.

Variable cfg : Config.
Variable env : Env.

(** A firing, in the timer's own thread, where no loop is running: the
    send is attempted, its outcome is logged, and the next timer is armed
    when [send_reminder] gets there, which is after the send has
    returned. *)
Lemma fire_armed s due :
  timer s = Some due ->
  (forall e, bot_reply env (io s) = Raise e -> is_Exception e = true) ->
  fire cfg env s = Some (Ok tt, after_fire cfg env due s).
Proof.
  intros Ht Hbot. unfold fire. rewrite Ht.
  unfold send_reminder, try_except, bind, log, asyncio_run, bot_send_message,
    external, print, log, Timer_start, after_fire, reminder_log, set_loop.
  cbn [loop io clock timer trace].
  destruct (bot_reply env (io s)) as [[] | e] eqn:Hr.
  - cbn [loop io clock timer trace]. rewrite <- !app_assoc. reflexivity.
  - cbn [dispatch loop io clock timer trace]. specialize (Hbot e eq_refl).
    destruct (is_TelegramError e).
    + cbn [loop io clock timer trace]. rewrite <- !app_assoc. reflexivity.
    + rewrite Hbot. cbn [loop io clock timer trace]. rewrite <- !app_assoc.
      reflexivity.
Qed.

Lemma firing_times_app (t1 t2 : list (Z * event)) :
  firing_times (t1 ++ t2) = firing_times t1 ++ firing_times t2.
Proof. apply flat_map_app. Qed.

Lemma timer_thread_schedule n :
  bot_never_interrupted env ->
  forall s due,
    timer s = Some due ->
    exists s',
      timer_thread cfg env n s = Some (Ok tt, s')
      /\ firing_times (trace s')
         = firing_times (trace s) ++ schedule env n due (io s).
Proof.
  intros Hbot. induction n as [| n IH]; intros s due Ht.
  - exists s. split; [reflexivity | now rewrite app_nil_r].
  - destruct (IH (after_fire cfg env due s)
                 (due + latency env (io s) + 1000 * (30 * 60)) eq_refl)
      as (s' & Hrun & Htimes).
    exists s'. split.
    + cbn [timer_thread]. rewrite (fire_armed s due Ht (Hbot (io s))). exact Hrun.
    + rewrite Htimes. cbn [after_fire trace io]. rewrite firing_times_app.
      cbn [firing_times flat_map snd fst app schedule]. now rewrite <- app_assoc.
Qed.

(** Consecutive entries of the schedule are one interval and the latency
    of the earlier send apart. *)
Lemma schedule_gap n :
  forall due k i,
    (S i < n)%nat ->
    nth (S i) (schedule env n due k) 0 - nth i (schedule env n due k) 0
    = 1000 * (30 * 60) + latency env (k + i).
Proof.
  induction n as [| n IH]; intros due k i Hi; [lia |].
  destruct i as [| i].
  - destruct n as [| n]; [lia |]. cbn [schedule nth]. rewrite Nat.add_0_r. lia.
  - cbn [schedule]. change (nth (S (S i)) (due :: ?l) 0) with (nth (S i) l 0).
    cbn [nth]. rewrite IH by lia. now rewrite Nat.add_succ_comm.
Qed.

End Reminder.

(** C8 as stated (consecutive firings are exactly one period apart) fails
    as soon as a send takes time: with sends of a quarter of a second, the
    first two firings are 1800.25 seconds apart. *)
Lemma firings_drift_by_send_time :
  exists s',
    timer_thread watched_cfg sample_env 2
      {| loop := false; io := 0; clock := 0; timer := Some (1000 * (30 * 60));
         trace := [] |}
    = Some (Ok tt, s')
    /\ firing_times (trace s') = [1800000; 3600250]
    /\ 3600250 - 1800000 <> 1000 * (30 * 60).
Proof.
  eexists. split; [vm_compute; reflexivity |].
  split; [reflexivity | discriminate].
Qed.

(** C8, amended (consecutive firings are one period plus the time of the
    earlier send apart, whether that send succeeded or failed): the timer
    thread fires at the times of [schedule], and entry [i+1] of it is entry
    [i] plus thirty minutes plus the latency of the send made at firing
    [i]; so the gap is at least thirty minutes. *)
Theorem firings_one_period_plus_send_time cfg env n s due :
  bot_never_interrupted env ->
  timer s = Some due ->
  (forall k, 0 <= latency env k) ->
  exists s',
    timer_thread cfg env n s = Some (Ok tt, s')
    /\ firing_times (trace s')
       = firing_times (trace s) ++ schedule env n due (io s)
    /\ forall i, (S i < n)%nat ->
         nth (S i) (schedule env n due (io s)) 0
         - nth i (schedule env n due (io s)) 0
         = 1000 * (30 * 60) + latency env (io s + i)
         /\ 1000 * (30 * 60)
            <= nth (S i) (schedule env n due (io s)) 0
               - nth i (schedule env n due (io s)) 0.
Proof.
  intros Hbot Ht Hlat.
  destruct (timer_thread_schedule cfg env n Hbot s due Ht) as (s' & Hrun & Htimes).
  exists s'. split; [exact Hrun | split; [exact Htimes |]].
  intros i Hi. rewrite (schedule_gap env n due (io s) i Hi).
  split; [reflexivity |]. specialize (Hlat (io s + i)%nat). lia.
Qed.

Lemma firings_one_period_plus_send_time_witness :
  exists s',
    timer_thread watched_cfg sample_env 3
      {| loop := false; io := 0; clock := 0; timer := Some 1800000; trace := [] |}
    = Some (Ok tt, s')
    /\ firing_times (trace s') = [1800000; 3600250; 5400500].
Proof.
  destruct (firings_one_period_plus_send_time watched_cfg sample_env 3
              {| loop := false; io := 0; clock := 0; timer := Some 1800000;
                 trace := [] |}
              1800000)
    as (s' & Hrun & Htimes & _).
  - intros k e [= <-]. reflexivity.
  - reflexivity.
  - intros k. cbn. lia.
  - exists s'. split; [exact Hrun | exact Htimes].
Defined.

(** ** Start-up *)

(** A start-up that returns has checked the configuration and the HTTP
    connection, armed the timer and done nothing else. *)
Lemma startup_returns cfg env s s' :
  startup cfg env s = (Ok tt, s') -> s' = after_startup env s.
Proof.
  unfold startup, try_except, bind, print, log, external, exit, raise, ret,
    Timer_start.
  destruct (forallb truthy (required cfg)); cbn [negb]; [| discriminate].
  cbn [loop io clock timer trace].
  destruct (is_connected_reply env (io s)) as [[|] | e].
  - cbn [negb loop io clock timer trace]. intros [= <-].
    unfold after_startup. now rewrite <- !app_assoc.
  - cbn [negb dispatch is_Exception]. discriminate.
  - cbn [dispatch]. destruct (is_Exception e); discriminate.
Qed.

(** C10 (no reminder at start-up; the first firing is one interval after
    the timer is started; each firing arms its successor after its send):
    a start-up that returns has made no Bot API call and no firing, and
    leaves the timer due thirty minutes after the moment it was started;
    the firing then happens at that time, and a firing due at [due] logs
    the send at [due] and arms the next timer once the send has returned,
    [latency] later, for thirty minutes after that. *)
Theorem first_reminder_after_one_interval cfg env s s' :
  startup cfg env s = (Ok tt, s') ->
  bot_never_interrupted env ->
  notifier_calls (trace s') = notifier_calls (trace s)
  /\ firing_times (trace s') = firing_times (trace s)
  /\ In (clock s', EvTimerStart (30 * 60)) (trace s')
  /\ timer s' = Some (clock s' + 1000 * (30 * 60))
  /\ (exists s'',
        fire cfg env s' = Some (Ok tt, s'')
        /\ firing_times (trace s'')
           = firing_times (trace s') ++ [clock s' + 1000 * (30 * 60)])
  /\ (forall st due,
        timer st = Some due ->
        exists st',
          fire cfg env st = Some (Ok tt, st')
          /\ trace st'
             = trace st
               ++ [ (due, EvTimerFired);
                    (due, EvSendMessage (TELEGRAM_CHAT_ID cfg) reminder_text);
                    (due + latency env (io st),
                     EvPrint (reminder_log (bot_reply env (io st))));
                    (due + latency env (io st), EvTimerStart (30 * 60)) ]
          /\ timer st' = Some (due + latency env (io st) + 1000 * (30 * 60))).
Proof.
  intros Hs Hbot. apply startup_returns in Hs. subst s'.
  assert (Hfire : forall st due,
             timer st = Some due ->
             fire cfg env st = Some (Ok tt, after_fire cfg env due st)).
  { intros st due Ht. apply fire_armed; [exact Ht | apply Hbot]. }
  repeat match goal with |- _ /\ _ => split end.
  - cbn [after_startup trace]. now rewrite notifier_calls_app, app_nil_r.
  - cbn [after_startup trace]. now rewrite firing_times_app, app_nil_r.
  - cbn [after_startup trace clock]. apply in_or_app. right. cbn. tauto.
  - reflexivity.
  - eexists. split; [apply Hfire; reflexivity |].
    cbn [after_fire trace]. rewrite firing_times_app. reflexivity.
  - intros st due Ht. exists (after_fire cfg env due st).
    split; [now apply Hfire | split; reflexivity].
Qed.

Lemma first_reminder_after_one_interval_witness :
  timer (after_startup sample_env initial) = Some (250 + 1800000)
  /\ notifier_calls (trace (after_startup sample_env initial)) = [].
Proof.
  destruct (first_reminder_after_one_interval watched_cfg sample_env initial
              (after_startup sample_env initial))
    as (Hcalls & _ & _ & Htimer & _).
  - reflexivity.
  - intros k e [= <-]. reflexivity.
  - split; [exact Htimer | exact Hcalls].
Defined.

(** C7 as stated (the specific missing items are reported) fails: with
    only the channel identifier missing, the lines printed name all four
    variables, three of which are set. *)
Lemma missing_chat_id_reports_all_names :
  missing no_chat_cfg = ["TEL_CHAT_ID"]
  /\ main no_chat_cfg sample_env 0 initial
     = Some (Raise (SystemExit 1), after_config_error initial)
  /\ reported (trace (after_config_error initial)) = required_names
  /\ reported (trace (after_config_error initial)) <> missing no_chat_cfg.
Proof.
  repeat split; try reflexivity. vm_compute. discriminate.
Qed.

(** C7, amended (with the bot credential present and the bot object
    built, a missing channel identifier, endpoint URL or contract address
    stops the process with status 1 before any background work, after a
    fixed message): the process prints the same two lines, which name all
    four variables, and exits with status 1; no external call has been
    made, no timer armed and no connection attempted, whatever the fuel
    given to the listener.  The case of a missing bot credential is left
    out: there the constructor on line 37 runs first with no token. *)
Theorem missing_configuration_exits cfg env fuel s :
  truthy (TELEGRAM_BOT_TOKEN cfg) = true ->
  Bot_new env (TELEGRAM_BOT_TOKEN cfg) = Ok tt ->
  forallb truthy (required cfg) = false ->
  main cfg env fuel s = Some (Raise (SystemExit 1), after_config_error s)
  /\ startup cfg env s = (Raise (SystemExit 1), after_config_error s)
  /\ exit_status (Raise (SystemExit 1)) = 1
  /\ trace (after_config_error s)
     = trace s
       ++ [ (clock s, EvPrint (Literal "Error: One or more required environment variables are not set."));
            (clock s, EvPrint (Literal "Please set TEL_BOT_TOKEN, TEL_CHAT_ID, QN_WSS_URL, and TOKEN_CONTRACT_ADDRESS.")) ]
  /\ io (after_config_error s) = io s
  /\ timer (after_config_error s) = timer s
  /\ connects (trace (after_config_error s)) = connects (trace s)
  /\ notifier_calls (trace (after_config_error s)) = notifier_calls (trace s).
Proof.
  intros _ Hb Hmiss.
  assert (Hs : startup cfg env s = (Raise (SystemExit 1), after_config_error s)).
  { unfold startup, bind at 1. rewrite Hmiss. cbn [negb].
    unfold bind, print, log, exit, raise, after_config_error.
    cbn [loop io clock timer trace]. now rewrite <- !app_assoc. }
  repeat match goal with |- _ /\ _ => split end; try reflexivity.
  - unfold main, module_init, bind at 1, lift. now rewrite Hb, Hs.
  - exact Hs.
  - cbn [after_config_error trace]. now rewrite connects_app, app_nil_r.
  - cbn [after_config_error trace]. now rewrite notifier_calls_app, app_nil_r.
Qed.

Lemma missing_configuration_exits_witness :
  main no_chat_cfg sample_env 5 initial
  = Some (Raise (SystemExit 1), after_config_error initial).
Proof.
  destruct (missing_configuration_exits no_chat_cfg sample_env 5 initial
              eq_refl eq_refl eq_refl) as [Hmain _].
  exact Hmain.
Defined.

(** * Further properties of the code *)

(** ** The check, completely *)

Lemma lower_empty_iff (r a : string) :
  lower r = lower a -> (r = EmptyString <-> a = EmptyString).
Proof.
  intros H. split; intros ->; [destruct a | destruct r]; cbn in H; congruence.
Qed.

Lemma truthy_lower (r r' : string) :
  lower r = lower r' -> truthy (Some r) = truthy (Some r').
Proof.
  intros H. unfold truthy.
  destruct (String.eqb_spec r EmptyString) as [Hr | Hr],
           (String.eqb_spec r' EmptyString) as [Hr' | Hr']; try reflexivity.
  - apply (lower_empty_iff r r' H) in Hr. contradiction.
  - apply (lower_empty_iff r r' H) in Hr'. contradiction.
Qed.

(** X1 (lines 112-116): with the watched address configured, the check
    yields an event exactly when the recipient is present and equals the
    address up to case and the value is between [25000000000000002] wei
    and [2^256 - 1]; the event is then the hash in hex, the value divided
    by [10^18] and the sender. *)
Theorem evaluate_event cfg tx a ev :
  TOKEN_CONTRACT_ADDRESS cfg = Some a ->
  a <> EmptyString ->
  evaluate cfg tx = Ok (Some ev) <->
  (exists r, tx_to tx = Some r /\ lower r = lower a)
  /\ 25000000000000002 <= tx_value tx <= MAX_WEI
  /\ ev = {| ev_tx_hash := toHex (tx_hash tx);
             ev_amount := tx_value tx # ether;
             ev_buyer := tx_from tx |}.
Proof.
  intros Ha Hne. unfold evaluate. rewrite Ha.
  destruct (tx_to tx) as [r |].
  2:{ split; [discriminate | intros ((r & H & _) & _); discriminate]. }
  destruct (String.eqb_spec (lower r) (lower a)) as [Heq | Hneq].
  - rewrite (truthy_nonempty r (lower_nonempty r a Heq Hne)). cbn [negb].
    unfold fromWei.
    destruct (Z.eqb_spec (tx_value tx) 0) as [H0 | H0].
    + cbn. split; [discriminate | intros (_ & H & _); lia].
    + destruct (Z.ltb_spec (tx_value tx) 0) as [Hlt | Hge]; cbn [orb].
      * split; [discriminate | intros (_ & H & _); lia].
      * destruct (Z.ltb_spec MAX_WEI (tx_value tx)) as [Hbig | Hfit].
        -- split; [discriminate | intros (_ & H & _); lia].
        -- rewrite threshold_in_wei.
           destruct (Z.leb_spec 25000000000000002 (tx_value tx)) as [H | H].
           ++ split.
              ** intros [= <-]. repeat split; [exists r; auto | lia | lia].
              ** intros (_ & _ & ->). reflexivity.
           ++ split; [discriminate | intros (_ & H' & _); lia].
  - destruct (negb (truthy (Some r)));
      (split; [discriminate |]);
      intros ((r' & [= <-] & H) & _); contradiction.
Qed.

Lemma evaluate_event_witness :
  evaluate watched_cfg (transfer to_watched 30000000000000000)
  = Ok (Some {| ev_tx_hash := "0x61626364";
                ev_amount := 30000000000000000 # ether;
                ev_buyer := "0x00000000000000000000000000000000000000b1" |}).
Proof.
  apply (evaluate_event watched_cfg (transfer to_watched 30000000000000000)
           "0x2119de8f257d27662991198389E15Bf8d1F4aB24").
  - reflexivity.
  - discriminate.
  - split; [eexists; split; reflexivity |].
    split; [unfold MAX_WEI; cbn; lia | reflexivity].
Defined.

(** X2 (line 112): the check compares lower-cased strings, so the letter
    case of the recipient and of the configured address does not matter:
    two transactions that differ only in the case of the recipient, under
    configurations that differ only in the case of the address, get the
    same result. *)
Theorem evaluate_ignores_case cfg cfg' tx tx' r r' a a' :
  tx_to tx = Some r -> tx_to tx' = Some r' -> lower r = lower r' ->
  TOKEN_CONTRACT_ADDRESS cfg = Some a ->
  TOKEN_CONTRACT_ADDRESS cfg' = Some a' -> lower a = lower a' ->
  tx_value tx = tx_value tx' -> tx_hash tx = tx_hash tx' ->
  tx_from tx = tx_from tx' ->
  evaluate cfg tx = evaluate cfg' tx'.
Proof.
  intros Hr Hr' Hl Ha Ha' Hla Hv Hh Hf. unfold evaluate.
  rewrite Hr, Hr', Ha, Ha', (truthy_lower r r' Hl), Hl, Hla, Hv, Hh, Hf.
  reflexivity.
Qed.

Lemma evaluate_ignores_case_witness :
  evaluate watched_cfg (transfer to_watched 30000000000000000)
  = evaluate watched_cfg
      (transfer (Some "0x2119de8f257d27662991198389e15bf8d1f4ab24") 30000000000000000).
Proof.
  apply (evaluate_ignores_case watched_cfg watched_cfg _ _
           "0x2119DE8F257D27662991198389E15BF8D1F4AB24"
           "0x2119de8f257d27662991198389e15bf8d1f4ab24"
           "0x2119de8f257d27662991198389E15Bf8d1F4aB24"
           "0x2119de8f257d27662991198389E15Bf8d1F4aB24"); reflexivity.
Defined.

(** X3 (lines 112-113): the check raises in two cases only.  With a
    non-empty recipient and no address configured, lower-casing the
    address raises [AttributeError]; with a recipient equal to the address
    up to case and a value below zero or above [2^256 - 1], the
    conversion raises [ValueError].  A transfer to any other address
    never raises, whatever its value. *)
Theorem evaluate_raises_iff cfg tx e :
  evaluate cfg tx = Raise e <->
  exists r,
    tx_to tx = Some r /\ r <> EmptyString
    /\ ((TOKEN_CONTRACT_ADDRESS cfg = None /\ e = AttributeError)
        \/ (exists a, TOKEN_CONTRACT_ADDRESS cfg = Some a /\ lower r = lower a
                      /\ (tx_value tx < 0 \/ MAX_WEI < tx_value tx)
                      /\ e = ValueError)).
Proof.
  unfold evaluate, fromWei.
  destruct (tx_to tx) as [r |].
  2:{ split; [discriminate | intros (r & H & _); discriminate]. }
  unfold truthy. destruct (String.eqb_spec r EmptyString) as [Hr | Hr]; cbn [negb].
  { split; [discriminate | intros (r' & [= <-] & H & _); contradiction]. }
  destruct (TOKEN_CONTRACT_ADDRESS cfg) as [a |].
  2:{ split.
      - intros [= <-]. exists r. repeat split; auto.
      - intros (r' & _ & _ & [[_ ->] | (a & H & _)]); [reflexivity | discriminate]. }
  destruct (String.eqb_spec (lower r) (lower a)) as [Heq | Hneq].
  2:{ split; [discriminate |].
      intros (r' & [= <-] & _ & [[H _] | (a' & [= <-] & H & _)]);
        [discriminate | contradiction]. }
  destruct (Z.eqb_spec (tx_value tx) 0) as [H0 | H0].
  { destruct (Qle_bool _ _); (split; [discriminate |]);
      intros (r' & _ & _ & [[H _] | (a' & _ & _ & H & _)]);
      [discriminate | unfold MAX_WEI in H; lia | discriminate
       | unfold MAX_WEI in H; lia]. }
  destruct (Z.ltb_spec (tx_value tx) 0) as [Hlt | Hge]; cbn [orb].
  { split.
    - intros [= <-]. exists r. split; [reflexivity | split; [exact Hr |]].
      right. exists a. repeat split; auto.
    - intros (r' & _ & _ & [[H _] | (a' & _ & _ & _ & ->)]);
        [discriminate | reflexivity]. }
  destruct (Z.ltb_spec MAX_WEI (tx_value tx)) as [Hbig | Hfit].
  { split.
    - intros [= <-]. exists r. split; [reflexivity | split; [exact Hr |]].
      right. exists a. repeat split; auto.
    - intros (r' & _ & _ & [[H _] | (a' & _ & _ & _ & ->)]);
        [discriminate | reflexivity]. }
  destruct (Qle_bool _ _); (split; [discriminate |]);
    intros (r' & _ & _ & [[H _] | (a' & _ & _ & H & _)]);
    try discriminate; lia.
Qed.

(** ** The block handler *)

(** X4 (lines 105-106, 120-121): when fetching the block fails with a
    subclass of [Exception], the handler logs the error of the block and
    returns normally after that one external call; no transaction is
    looked at and no Bot API call is made.  An exception that is no
    subclass of [Exception] leaves the handler. *)
Theorem fetch_failure_is_logged cfg env n s e :
  get_block_reply env (io s) n = Raise e ->
  handle_new_block cfg env n s
  = if is_Exception e
    then (Ok tt,
          {| loop := loop s; io := S (io s);
             clock := clock s + latency env (io s); timer := timer s;
             trace := trace s
                      ++ [ (clock s, EvGetBlock n);
                           (clock s + latency env (io s),
                            EvPrint (ErrorHandlingBlock n e)) ] |})
    else (Raise e,
          {| loop := loop s; io := S (io s);
             clock := clock s + latency env (io s); timer := timer s;
             trace := trace s ++ [(clock s, EvGetBlock n)] |}).
Proof.
  intros Hr.
  unfold handle_new_block, try_except, bind, get_block, external.
  rewrite Hr. cbn [dispatch]. destruct (is_Exception e).
  - unfold print, log. cbn [loop io clock timer trace].
    now rewrite <- app_assoc.
  - reflexivity.
Qed.

Lemma fetch_failure_is_logged_witness :
  fst (handle_new_block watched_cfg no_block_env 7 initial) = Ok tt.
Proof.
  rewrite (fetch_failure_is_logged watched_cfg no_block_env 7 initial
             (OtherException "unknown block") eq_refl).
  reflexivity.
Defined.

(** X5 (lines 105, 120 and 140, 151): whatever the world answers, the
    block handler and a pass of the receive loop return normally or raise
    an exception that is no subclass of [Exception]; fetch errors, errors
    of the check and send errors never leave them. *)
Theorem block_errors_never_propagate cfg env n s :
  (exists s', handle_new_block cfg env n s = (Ok tt, s')
              \/ exists e, handle_new_block cfg env n s = (Raise e, s')
                           /\ is_Exception e = false)
  /\ (exists b s', receive_step cfg env s = (Ok b, s')
                   \/ exists e, receive_step cfg env s = (Raise e, s')
                                /\ is_Exception e = false).
Proof.
  split.
  - destruct (handle_new_block cfg env n s) as [[[] | e] s'] eqn:H.
    + exists s'. now left.
    + exists s'. right. exists e. split; [reflexivity |].
      exact (handle_new_block_catches _ _ _ _ _ _ H).
  - destruct (receive_step cfg env s) as [[b | e] s'] eqn:H.
    + exists b, s'. now left.
    + exists true, s'. right. exists e. split; [reflexivity |].
      exact (receive_step_catches _ _ _ _ _ H).
Qed.

Lemma handle_new_block_alerts_witness :
  exists s',
    handle_new_block watched_cfg sample_env 7 initial = (Ok tt, s')
    /\ List.length (notifier_calls (trace s')) = 2%nat.
Proof.
  destruct (handle_new_block_alerts watched_cfg sample_env
              "0x2119de8f257d27662991198389E15Bf8d1F4aB24" 7 sample_block initial)
    as (s' & Hrun & Hcalls).
  - reflexivity.
  - reflexivity.
  - intros k e [= <-]. reflexivity.
  - reflexivity.
  - intros tx Hin. cbn in Hin. unfold MAX_WEI.
    repeat (destruct Hin as [<- | Hin]; [cbn; lia |]). destruct Hin.
  - exists s'. split; [exact Hrun | now rewrite Hcalls].
Defined.

Lemma for_transactions_none cfg env txs :
  (forall tx, In tx txs -> evaluate cfg tx = Ok None) ->
  forall s, for_transactions cfg env txs s = (Ok tt, s).
Proof.
  induction txs as [| tx rest IH]; intros Hnone s; [reflexivity |].
  rewrite for_transactions_skip by (apply Hnone; now left).
  apply IH. intros t Ht. apply Hnone. now right.
Qed.

(** X7 (lines 105-119): a block none of whose transactions passes the
    check, the empty block included, is fetched and logged and nothing
    else happens: one external call, no Bot API call, no error, inside a
    running loop or not. *)
Theorem block_without_purchases cfg env n block s :
  get_block_reply env (io s) n = Ok block ->
  (forall tx, In tx (transactions block) -> evaluate cfg tx = Ok None) ->
  handle_new_block cfg env n s
  = (Ok tt,
     {| loop := loop s; io := S (io s);
        clock := clock s + latency env (io s); timer := timer s;
        trace := trace s
                 ++ [ (clock s, EvGetBlock n);
                      (clock s + latency env (io s),
                       EvPrint (ProcessingBlock n (List.length (transactions block)))) ] |}).
Proof.
  intros Hr Hnone.
  unfold handle_new_block, try_except, bind, get_block, external.
  rewrite Hr. unfold print, log. cbn [loop io clock timer trace].
  rewrite (for_transactions_none cfg env _ Hnone).
  now rewrite <- app_assoc.
Qed.

Lemma block_without_purchases_witness :
  fst (handle_new_block watched_cfg quiet_env 7 (set_loop true initial)) = Ok tt.
Proof.
  rewrite (block_without_purchases watched_cfg quiet_env 7 quiet_block
             (set_loop true initial) eq_refl).
  - reflexivity.
  - intros tx [<- | [<- | []]]; reflexivity.
Defined.

(** ** The listener *)

(** X8 (lines 140-154): when waiting for a header fails with a subclass of
    [Exception], the receive loop logs the error, sleeps two seconds and
    goes round again on the same subscription; no block is fetched. *)
Theorem receive_error_waits_two_seconds cfg env fuel s e :
  receive_reply env (io s) = Raise e ->
  is_Exception e = true ->
  receive_loop cfg env (S fuel) s
  = receive_loop cfg env fuel
      {| loop := loop s; io := S (io s);
         clock := clock s + latency env (io s) + 1000 * 2; timer := timer s;
         trace := trace s
                  ++ [ (clock s, EvReceive);
                       (clock s + latency env (io s), EvPrint (ErrorReceiving e));
                       (clock s + latency env (io s), EvSleep 2) ] |}.
Proof.
  intros Hr He. cbn [receive_loop].
  unfold receive_step, try_except, bind at 1, external. rewrite Hr.
  cbn [dispatch]. replace (is_CancelledError e) with false
    by (destruct e; try reflexivity; discriminate).
  rewrite He. unfold bind, print, log, sleep, ret.
  cbn [loop io clock timer trace]. now rewrite <- !app_assoc.
Qed.

Lemma receive_error_waits_two_seconds_witness :
  receive_loop watched_cfg flaky_env 2 initial
  = Some (Ok tt,
          {| loop := false; io := 2; clock := 250 + 1000 * 2 + 250; timer := None;
             trace := [ (0, EvReceive);
                        (250, EvPrint (ErrorReceiving (OtherException "closed")));
                        (250, EvSleep 2);
                        (2250, EvReceive);
                        (2500, EvPrint (Literal "WebSocket connection was cancelled.")) ] |}).
Proof.
  rewrite (receive_error_waits_two_seconds watched_cfg flaky_env 1 initial
             (OtherException "closed") eq_refl eq_refl).
  reflexivity.
Defined.

(** X9 (lines 139-150): when the wait for a header is cancelled, the
    receive loop logs the cancellation and ends, and the listener that
    had connected returns normally: no wait, no further attempt. *)
Theorem cancellation_ends_the_listener cfg env fuel s :
  connect_reply env (io s) = Ok tt ->
  receive_reply env (S (io s)) = Raise CancelledError ->
  listen_for_new_blocks cfg env (S (S fuel)) s
  = Some (Ok tt,
          {| loop := loop s; io := S (S (io s));
             clock := clock s + latency env (io s) + latency env (S (io s));
             timer := timer s;
             trace := trace s
                      ++ [ (clock s, EvPrint (Literal "Connecting to QuickNode via WebSocket..."));
                           (clock s, EvConnect (QUICKNODE_WSS_URL cfg));
                           (clock s + latency env (io s), EvReceive);
                           (clock s + latency env (io s) + latency env (S (io s)),
                            EvPrint (Literal "WebSocket connection was cancelled.")) ] |}).
Proof.
  intros Hc Hr. rewrite (listen_connected cfg env (S fuel) s Hc).
  cbn [receive_loop].
  unfold receive_step, try_except, bind at 1, external, after_attempt.
  cbn [loop io clock timer trace]. rewrite Hr. cbn [dispatch is_CancelledError].
  unfold bind, print, log, ret. cbn [loop io clock timer trace].
  now rewrite <- !app_assoc.
Qed.

Lemma cancellation_ends_the_listener_witness :
  exists s',
    listen_for_new_blocks watched_cfg cancelled_env 2 (set_loop true initial)
    = Some (Ok tt, s')
    /\ sleeps (trace s') = [].
Proof.
  rewrite (cancellation_ends_the_listener watched_cfg cancelled_env 0
             (set_loop true initial) eq_refl eq_refl).
  eexists. split; reflexivity.
Defined.

(** X10 (lines 129-131, 155): an exception raised while connecting that is
    no subclass of [Exception], a cancellation for one, is not handled:
    it leaves the listener at once, with no log line, no wait and no
    further attempt. *)
Theorem interrupted_connection_propagates cfg env fuel s e :
  connect_reply env (io s) = Raise e ->
  is_Exception e = false ->
  listen_for_new_blocks cfg env (S fuel) s
  = Some (Raise e, after_attempt cfg env s)
  /\ sleeps (trace (after_attempt cfg env s)) = sleeps (trace s).
Proof.
  intros Hr He. split.
  - cbn [listen_for_new_blocks].
    unfold bind, print, log, external, after_attempt.
    cbn [loop io clock timer trace]. rewrite Hr, He.
    now rewrite <- !app_assoc.
  - cbn [after_attempt trace]. now rewrite sleeps_app, app_nil_r.
Qed.

Lemma interrupted_connection_propagates_witness :
  listen_for_new_blocks watched_cfg interrupted_env 1 (set_loop true initial)
  = Some (Raise CancelledError,
          after_attempt watched_cfg interrupted_env (set_loop true initial)).
Proof.
  destruct (interrupted_connection_propagates watched_cfg interrupted_env 0
              (set_loop true initial) CancelledError eq_refl eq_refl) as [H _].
  exact H.
Defined.

(** ** Start-up, completely *)

(** X11 (lines 171-178): with the configuration complete, when the HTTP
    provider reports that it is not connected, or setting it up raises a
    subclass of [Exception], the entry point logs the error and exits
    with status 1; the timer has not been armed and the listener has not
    been started. *)
Theorem http_check_failure_exits cfg env fuel s e :
  Bot_new env (TELEGRAM_BOT_TOKEN cfg) = Ok tt ->
  forallb truthy (required cfg) = true ->
  (is_connected_reply env (io s) = Ok false
   /\ e = OtherException "Failed to connect to QuickNode via HTTP.")
  \/ (is_connected_reply env (io s) = Raise e /\ is_Exception e = true) ->
  main cfg env fuel s
  = Some (Raise (SystemExit 1),
          {| loop := loop s; io := S (io s);
             clock := clock s + latency env (io s); timer := timer s;
             trace := trace s
                      ++ [ (clock s, EvPrint (Literal "Bot is starting..."));
                           (clock s, EvIsConnected);
                           (clock s + latency env (io s),
                            EvPrint (ErrorInitializingHTTP e)) ] |}).
Proof.
  intros Hb Hc Hr.
  unfold main, module_init, bind at 1, lift. rewrite Hb.
  unfold startup, try_except, bind, print, log, external, exit, raise, ret.
  rewrite Hc. cbn [negb loop io clock timer trace].
  destruct Hr as [[Hr ->] | [Hr He]]; rewrite Hr.
  - cbn [negb dispatch is_Exception loop io clock timer trace].
    now rewrite <- !app_assoc.
  - cbn [dispatch]. rewrite He. cbn [loop io clock timer trace].
    now rewrite <- !app_assoc.
Qed.

Lemma http_check_failure_exits_witness :
  exists s',
    main watched_cfg
      {| Bot_new := fun _ => Ok tt;
         get_block_reply := get_block_reply live_env;
         bot_reply := bot_reply live_env;
         connect_reply := connect_reply live_env;
         receive_reply := receive_reply live_env;
         is_connected_reply := fun _ => Ok false;
         latency := latency live_env |} 5 initial
    = Some (Raise (SystemExit 1), s')
    /\ timer s' = None.
Proof.
  eexists. split.
  - apply (http_check_failure_exits watched_cfg
             {| Bot_new := fun _ => Ok tt;
                get_block_reply := get_block_reply live_env;
                bot_reply := bot_reply live_env;
                connect_reply := connect_reply live_env;
                receive_reply := receive_reply live_env;
                is_connected_reply := fun _ => Ok false;
                latency := latency live_env |} 5 initial
             (OtherException "Failed to connect to QuickNode via HTTP."));
      [reflexivity | reflexivity | left; split; reflexivity].
  - reflexivity.
Defined.

(** X12 (lines 164-184): start-up goes through exactly when all four
    configuration values are set and non-empty and the HTTP provider
    reports that it is connected; it then has armed the timer for thirty
    minutes and made one external call. *)
Theorem startup_succeeds_iff cfg env s :
  (exists s', startup cfg env s = (Ok tt, s'))
  <-> forallb truthy (required cfg) = true
      /\ is_connected_reply env (io s) = Ok true.
Proof.
  split.
  - intros [s' H]. revert H.
    unfold startup, try_except, bind, print, log, external, exit, raise, ret,
      Timer_start.
    destruct (forallb truthy (required cfg)); cbn [negb]; [| discriminate].
    cbn [loop io clock timer trace].
    destruct (is_connected_reply env (io s)) as [[|] | e].
    + intros _. now split.
    + cbn [negb dispatch is_Exception]. discriminate.
    + cbn [dispatch]. destruct (is_Exception e); discriminate.
  - intros [Hc Hr]. exists (after_startup env s). now apply startup_ok.
Qed.

(** ** The notifier, completely *)

(** X13 (lines 41-69): [send_telegram_alert] makes exactly one Bot API
    call, a photo with the logo and the caption of the alert.  It returns
    normally when the call succeeds or fails with any subclass of
    [Exception], logging the success, the Telegram error or the
    unexpected error; only an exception that is no subclass of
    [Exception] leaves it. *)
Theorem send_telegram_alert_one_call cfg env tx_hash amount buyer s :
  exists s',
    send_telegram_alert cfg env tx_hash amount buyer s
    = (match bot_reply env (io s) with
       | Ok _ => Ok tt
       | Raise e => if is_Exception e then Ok tt else Raise e
       end, s')
    /\ io s' = S (io s)
    /\ notifier_calls (trace s')
       = notifier_calls (trace s)
         ++ [EvSendPhoto (TELEGRAM_CHAT_ID cfg) AGAMA_LOGO_URL
               (buy_alert_caption tx_hash amount buyer)]
    /\ last (map snd (trace s')) EvReceive
       = match bot_reply env (io s) with
         | Ok _ => EvPrint (SentBuyAlert tx_hash)
         | Raise e =>
             if is_TelegramError e then EvPrint (ErrorSendingAlert e)
             else if is_Exception e then EvPrint (UnexpectedInAlert e)
             else EvSendPhoto (TELEGRAM_CHAT_ID cfg) AGAMA_LOGO_URL
                    (buy_alert_caption tx_hash amount buyer)
         end.
Proof.
  unfold send_telegram_alert, try_except, bind, bot_send_photo, external.
  destruct (bot_reply env (io s)) as [[] | e].
  - eexists. split; [reflexivity |]. cbn [io trace print log].
    split; [reflexivity |]. split.
    + now rewrite !notifier_calls_app, app_nil_r.
    + rewrite map_app. cbn [map snd]. now rewrite last_last.
  - cbn [dispatch].
    destruct e; cbn [is_TelegramError is_Exception]; eexists;
      (split; [reflexivity |]); cbn [io trace print log raise];
      (split; [reflexivity |]); split;
      try (now rewrite !notifier_calls_app, ?app_nil_r);
      rewrite ?map_app; cbn [map snd]; now rewrite last_last.
Qed.

(** X14 (lines 77-98): the next timer is started by the last statements of
    [send_reminder]; when the send raises an exception that is no
    subclass of [Exception], those statements are not reached: the
    firing ends with the exception, no timer is armed, and the timer
    thread fires no more. *)
Theorem interrupted_reminder_stops_timer cfg env s due e :
  timer s = Some due ->
  bot_reply env (io s) = Raise e ->
  is_Exception e = false ->
  exists s',
    fire cfg env s = Some (Raise e, s')
    /\ timer s' = None
    /\ fire cfg env s' = None
    /\ forall n, timer_thread cfg env (S n) s = Some (Raise e, s').
Proof.
  intros Ht Hr He. eexists. split; [| split; [| split]].
  - unfold fire. rewrite Ht.
    unfold send_reminder, try_except, bind, log, asyncio_run, bot_send_message,
      external, set_loop.
    cbn [loop io clock timer trace]. rewrite Hr.
    cbn [dispatch]. replace (is_TelegramError e) with false
      by (destruct e; try reflexivity; discriminate).
    rewrite He. unfold raise. reflexivity.
  - reflexivity.
  - reflexivity.
  - intros n. cbn [timer_thread]. unfold fire at 1. rewrite Ht.
    unfold send_reminder, try_except, bind, log, asyncio_run, bot_send_message,
      external, set_loop.
    cbn [loop io clock timer trace]. rewrite Hr.
    cbn [dispatch]. replace (is_TelegramError e) with false
      by (destruct e; try reflexivity; discriminate).
    rewrite He. unfold raise. reflexivity.
Qed.

Lemma interrupted_reminder_stops_timer_witness :
  exists s',
    timer_thread watched_cfg interrupt_env 3 armed = Some (Raise KeyboardInterrupt, s')
    /\ timer s' = None.
Proof.
  destruct (interrupted_reminder_stops_timer watched_cfg interrupt_env armed
              1800000 KeyboardInterrupt eq_refl eq_refl eq_refl)
    as (s' & _ & Ht & _ & Hrun).
  exists s'. split; [apply Hrun | exact Ht].
Defined.

(** ** The caption *)

Lemma substring_length s :
  forall n m, String.length (substring n m s) = Nat.min m (String.length s - n).
Proof.
  induction s as [| c s IH]; intros n m.
  - destruct n, m; reflexivity.
  - destruct n as [| n].
    + destruct m as [| m]; [reflexivity |]. cbn [substring String.length].
      rewrite IH. cbn. now rewrite Nat.sub_0_r.
    + cbn [substring String.length]. now rewrite IH.
Qed.

Lemma substring_add s :
  forall n a b,
    (n + a + b <= String.length s)%nat ->
    substring n (a + b) s = (substring n a s ++ substring (n + a) b s)%string.
Proof.
  induction s as [| c s IH]; intros n a b Hlen.
  - cbn in Hlen. assert (n = 0 /\ a = 0 /\ b = 0)%nat as (-> & -> & ->) by lia.
    reflexivity.
  - destruct n as [| n].
    + destruct a as [| a].
      * cbn [Nat.add]. now destruct b.
      * cbn [Nat.add substring append]. f_equal.
        apply (IH 0%nat a b). cbn in Hlen. lia.
    + cbn [Nat.add substring]. apply IH. cbn in Hlen. lia.
Qed.

Lemma substring_whole s : substring 0 (String.length s) s = s.
Proof.
  induction s as [| c s IH]; [reflexivity |].
  cbn [String.length substring]. now rewrite IH.
Qed.

(** X15 (line 51): the buyer is shown as [s[:6]], three dots and [s[-4:]].
    The two slices never fail: they hold at most six and four characters.
    For an address of ten characters or more they are its first six and
    its last four characters, so what the caption leaves out is the
    middle. *)
Theorem buyer_shown_as_first6_last4 (s : string) :
  String.length (first6 s) = Nat.min 6 (String.length s)
  /\ String.length (last4 s) = Nat.min 4 (String.length s)
  /\ ((10 <= String.length s)%nat ->
      s = (first6 s ++ substring 6 (String.length s - 10) s ++ last4 s)%string).
Proof.
  unfold first6, last4. rewrite !substring_length. repeat split; try lia.
  intros Hlen.
  replace (String.length s - 4)%nat with (6 + (String.length s - 10))%nat by lia.
  rewrite <- (substring_add s 6 (String.length s - 10) 4) by lia.
  replace 6%nat with (0 + 6)%nat at 2 by reflexivity.
  rewrite <- (substring_add s 0 6 (String.length s - 10 + 4)) by lia.
  replace (6 + (String.length s - 10 + 4))%nat with (String.length s) by lia.
  now rewrite substring_whole.
Qed.

Lemma round_half_even_bound (n d : Z) :
  0 < d -> 2 * Z.abs (n - d * round_half_even n d) <= d.
Proof.
  intros Hd. unfold round_half_even.
  pose proof (Z.div_mod n d ltac:(lia)) as Hdm.
  pose proof (Z.mod_pos_bound n d Hd) as Hm.
  destruct (Z.compare_spec (2 * (n mod d)) d) as [He | Hl | Hg].
  - destruct (Z.even (n / d)); lia.
  - lia.
  - lia.
Qed.

Lemma pad3_length (r : Z) :
  0 <= r < 1000 -> String.length (pad3 (str_of_Z r)) = 3%nat.
Proof.
  intros Hr.
  assert (Hall : forallb (fun k => Nat.eqb (String.length (pad3 (str_of_Z (Z.of_nat k)))) 3)
                         (seq 0 1000) = true) by (vm_compute; reflexivity).
  rewrite forallb_forall in Hall.
  specialize (Hall (Z.to_nat r)). rewrite Z2Nat.id in Hall by lia.
  apply Nat.eqb_eq, Hall, in_seq. lia.
Qed.

(** X16 (line 50): the amount of an alert is written with exactly three
    decimals, and the number written is the amount rounded to the nearest
    thousandth: it differs from the amount by at most half a
    thousandth. *)
Theorem amount_shown_with_three_decimals (q : Q) :
  0 <= Qnum q ->
  exists m,
    0 <= m
    /\ format_3f q
       = (str_of_Z (m / 1000) ++ "." ++ pad3 (str_of_Z (m mod 1000)))%string
    /\ String.length (pad3 (str_of_Z (m mod 1000))) = 3%nat
    /\ 2 * Z.abs (Qnum q * 1000 - Zpos (Qden q) * m) <= Zpos (Qden q).
Proof.
  intros Hq. exists (round_half_even (Qnum q * 1000) (Zpos (Qden q))).
  pose proof (round_half_even_bound (Qnum q * 1000) (Zpos (Qden q)) ltac:(lia)) as Hb.
  repeat split.
  - assert (0 <= Qnum q * 1000) by lia. nia.
  - apply pad3_length. apply Z.mod_pos_bound. lia.
  - exact Hb.
Qed.

Lemma amount_shown_with_three_decimals_witness :
  format_3f (30000000000000000 # ether) = "0.030".
Proof.
  destruct (amount_shown_with_three_decimals (30000000000000000 # ether))
    as (m & _ & H & _); [cbn; lia |].
  reflexivity.
Defined.
